(** * pydablooms: the Python binding of the dablooms scaling, counting Bloom filter

    The development has three parts.

    - [pydablooms]: a shallow embedding of [pydablooms.c].  The binding is
      written against [dablooms.h]; that header and the engine behind it are
      not part of the sources, so the embedding takes them as an interface,
      the class [Engine].
    - [dablooms]: the engine as the specification describes it (hash
      positions, counting sub-filters, scaling, sequence numbers, backing
      file), and the instance of [Engine] it gives.
    - the theorems. *)

From Stdlib Require Import ZArith NArith Lia Bool.
From Stdlib Require Import Floats.SpecFloat.
From stdpp Require Import gmap strings list.

Open Scope Z_scope.

(** C [double]: IEEE 754 binary64, as the standard library specifies it. *)
Abbreviation double := spec_float.

(** The literals [0] and [1] of the source, converted to [double]. *)
Definition d_zero : double := S754_zero false.
Definition d_one : double := S754_finite false 4503599627370496 (-52).

(** [a < b] and [a > b] on [double]; both are false when an operand is a NaN. *)
Definition d_lt (a b : double) : bool := SFltb a b.
Definition d_gt (a b : double) : bool := SFltb b a.
Definition d_le (a b : double) : bool := SFleb a b.

Definition is_nan (x : double) : bool :=
  match x with S754_nan => true | _ => false end.

(** A key is [len] bytes at [hash]. *)
Abbreviation bytes := (list Byte.byte).

(** [strlen]: the number of characters before the first NUL. *)
Fixpoint strlen (s : string) : nat :=
  match s with
  | EmptyString => 0%nat
  | String c rest => if Ascii.eqb c Ascii.zero then 0%nat else S (strlen rest)
  end.

(** ** The interface of [dablooms.h]

    [scaling_bloom_t] is the engine's filter object and [world] whatever the
    engine keeps outside it (the backing files).  The two constructors return
    a null pointer on failure, here [None]; [scaling_bloom_check] only reads. *)
Class Engine : Type := {
  scaling_bloom_t : Type;
  world : Type;
  new_scaling_bloom :
    Z -> double -> string -> world -> option scaling_bloom_t * world;
  new_scaling_bloom_from_file :
    Z -> double -> string -> world -> option scaling_bloom_t * world;
  free_scaling_bloom : scaling_bloom_t -> world -> world;
  scaling_bloom_add :
    scaling_bloom_t -> bytes -> Z -> world -> Z * scaling_bloom_t * world;
  scaling_bloom_remove :
    scaling_bloom_t -> bytes -> Z -> world -> Z * scaling_bloom_t * world;
  scaling_bloom_check : scaling_bloom_t -> bytes -> Z;
  scaling_bloom_flush : scaling_bloom_t -> world -> Z * scaling_bloom_t * world;
  scaling_bloom_mem_seqnum : scaling_bloom_t -> Z;
  scaling_bloom_disk_seqnum : scaling_bloom_t -> Z;
}.

Module pydablooms.
Section Binding.
Context {E : Engine}.

(** A [scaling_bloom_t *]: null, the address of a live engine object, or
    any other bit pattern. *)
Inductive ptr : Type :=
| Null
| Ref (b : scaling_bloom_t)
| Wild.

Definition of_option (o : option scaling_bloom_t) : ptr :=
  match o with Some b => Ref b | None => Null end.

(** [typedef struct { PyObject_HEAD scaling_bloom_t *filter; } Dablooms;] *)
Record Dablooms : Type := { filter : ptr }.

(** Exceptions: [DabloomsError] is the module's one exception object;
    [ArgumentError] stands for whatever [PyArg_Parse*] raises. *)
Inductive PyExc : Type :=
| DabloomsError (msg : string)
| ArgumentError.

Inductive PyObject : Type :=
| PyLong (v : Z)
| PyDablooms (d : Dablooms).

(** The state a call runs in: the interpreter's error indicator and the
    engine's world. *)
Record pystate : Type := { err : option PyExc; env : world }.

(** A call either returns, or hands the engine a pointer that is not a
    live object, which the engine dereferences: [Fault]. *)
Inductive outcome (A : Type) : Type :=
| Done (a : A) (st : pystate)
| Fault.
Arguments Done {A} a st.
Arguments Fault {A}.

Definition M (A : Type) : Type := pystate -> outcome A.

Definition ret {A} (a : A) : M A := fun st => Done a st.

Definition bind {A B} (m : M A) (k : A -> M B) : M B :=
  fun st => match m st with
            | Done a st' => k a st'
            | Fault => Fault
            end.

Definition PyErr_SetString (exc : string -> PyExc) (msg : string) : M unit :=
  fun st => Done tt {| err := Some (exc msg); env := env st |}.

(** [PyArg_ParseTupleAndKeywords] and [PyArg_Parse]: [args] is what the
    parser delivers, [None] when it fails and has set its exception. *)
Definition PyArg_Parse {A} (args : option A) : M (option A) :=
  fun st => match args with
            | Some a => Done (Some a) st
            | None => Done None {| err := Some ArgumentError; env := env st |}
            end.

(** Calls into the engine. *)
Definition in_world {A} (f : world -> A * world) : M A :=
  fun st => let '(a, w) := f (env st) in Done a {| err := err st; env := w |}.

Definition deref (p : ptr) : M scaling_bloom_t :=
  fun st => match p with
            | Ref b => Done b st
            | Null | Wild => Fault
            end.

Definition is_null (p : ptr) : bool :=
  match p with Null => true | _ => false end.

(** [filepath && strlen(filepath)] *)
Definition has_path (filepath : option string) : bool :=
  match filepath with
  | Some p => negb (Nat.eqb (strlen p) 0)
  | None => false
  end.

Definition path_of (filepath : option string) : string :=
  match filepath with Some p => p | None => EmptyString end.
Local Notation "x <- m ;; k" := (bind m (fun x => k))
  (at level 100, m at next level, right associativity).
Local Notation "m ;;; k" := (bind m (fun _ => k))
  (at level 100, right associativity).

(** [Dablooms_dealloc]; the object's own memory is not modelled. *)
Definition Dablooms_dealloc (self : Dablooms) : M unit :=
  if is_null (filter self) then ret tt
  else b <- deref (filter self) ;;
       in_world (fun w => (tt, free_scaling_bloom b w)).

(** [Dablooms_new]: [tp_alloc] gives a zeroed object and the function sets
    [filter] to [NULL] again. *)
Definition Dablooms_new : M (option PyObject) :=
  ret (Some (PyDablooms {| filter := Null |})).

(** [PyObject_New] initialises the object header only (the C API: "fields
    not defined by the Python object header are not initialized"): the
    [filter] field holds whatever the allocator left there, [junk]. *)
Definition PyObject_New (junk : ptr) : Dablooms := {| filter := junk |}.

(** [Dablooms_init]: the C [int] result and the object as the call leaves it. *)
Definition Dablooms_init (self : Dablooms)
    (args : option (Z * double * option string)) : M (Z * Dablooms) :=
  parsed <- PyArg_Parse args ;;
  match parsed with
  | None => ret (-1, self)
  | Some (capacity, error_rate, filepath) =>
    if capacity <? 1 then
      PyErr_SetString DabloomsError
        "Bloom creation failed: capacity must be greater than zero" ;;;
      ret (-1, self)
    else if d_gt error_rate d_one || d_lt error_rate d_zero then
      PyErr_SetString DabloomsError
        "Bloom creation failed: error_rate must be between 0 and 1" ;;;
      ret (-1, self)
    else if negb (has_path filepath) then
      PyErr_SetString DabloomsError
        "Bloom creation failed: filepath required" ;;;
      ret (-1, self)
    else
      f <- in_world (new_scaling_bloom capacity error_rate (path_of filepath)) ;;
      ret (0, {| filter := of_option f |})
  end.

(** [contains], the [sq_contains] slot: a C [int]. *)
Definition contains (self : Dablooms) (key : option bytes) : M Z :=
  parsed <- PyArg_Parse key ;;
  match parsed with
  | None => ret (-1)
  | Some hash =>
    b <- deref (filter self) ;;
    ret (scaling_bloom_check b hash)
  end.

(** The methods return a [PyObject *], [None] for [NULL]. *)
Definition check (self : Dablooms) (args : option bytes) : M (option PyObject) :=
  parsed <- PyArg_Parse args ;;
  match parsed with
  | None => ret None
  | Some hash =>
    b <- deref (filter self) ;;
    ret (Some (PyLong (scaling_bloom_check b hash)))
  end.

(** The engine works on the object [self->filter] points to; a method that
    changes it returns the object as it is afterwards. *)
Definition add (self : Dablooms) (args : option (bytes * Z))
  : M (option PyObject * Dablooms) :=
  parsed <- PyArg_Parse args ;;
  match parsed with
  | None => ret (None, self)
  | Some (hash, id) =>
    b <- deref (filter self) ;;
    r <- in_world (fun w => let '(r, b', w') := scaling_bloom_add b hash id w in
                            ((r, b'), w')) ;;
    ret (Some (PyLong (fst r)), {| filter := Ref (snd r) |})
  end.

Definition delete (self : Dablooms) (args : option (bytes * Z))
  : M (option PyObject * Dablooms) :=
  parsed <- PyArg_Parse args ;;
  match parsed with
  | None => ret (None, self)
  | Some (hash, id) =>
    b <- deref (filter self) ;;
    r <- in_world (fun w => let '(r, b', w') := scaling_bloom_remove b hash id w in
                            ((r, b'), w')) ;;
    ret (Some (PyLong (fst r)), {| filter := Ref (snd r) |})
  end.

Definition flush (self : Dablooms) : M (option PyObject * Dablooms) :=
  b <- deref (filter self) ;;
  r <- in_world (fun w => let '(r, b', w') := scaling_bloom_flush b w in
                          ((r, b'), w')) ;;
  ret (Some (PyLong (fst r)), {| filter := Ref (snd r) |}).

Definition mem_seqnum (self : Dablooms) : M (option PyObject) :=
  b <- deref (filter self) ;;
  ret (Some (PyLong (scaling_bloom_mem_seqnum b))).

Definition disk_seqnum (self : Dablooms) : M (option PyObject) :=
  b <- deref (filter self) ;;
  ret (Some (PyLong (scaling_bloom_disk_seqnum b))).

(** [load_dabloom].  The three tests set [result]; the object is released
    and [NULL] returned when one of them failed. *)
Definition load_dabloom (junk : ptr)
    (args : option (Z * double * option string)) : M (option PyObject) :=
  let self := PyObject_New junk in
  parsed <- PyArg_Parse args ;;
  match parsed with
  | None => ret None
  | Some (capacity, error_rate, filepath) =>
    result <-
      (if capacity <? 1 then
         PyErr_SetString DabloomsError
           "Bloom creation failed: capacity must be greater than zero" ;;;
         ret (-1)
       else if d_gt error_rate d_one || d_lt error_rate d_zero then
         PyErr_SetString DabloomsError
           "Bloom creation failed: error_rate must be between 0 and 1" ;;;
         ret (-1)
       else if negb (has_path filepath) then
         PyErr_SetString DabloomsError
           "Bloom creation failed: filepath required" ;;;
         ret (-1)
       else ret 0) ;;
    if result <? 0 then
      Dablooms_dealloc self ;;;
      ret None
    else
      f <- in_world (new_scaling_bloom_from_file capacity error_rate
                       (path_of filepath)) ;;
      ret (Some (PyDablooms {| filter := of_option f |}))
  end.


(** What Python makes of the results: the truth value of an [int] object,
    and the value of [key in obj] from the [sq_contains] slot ([None]: the
    slot reported an error). *)
Definition truth (o : PyObject) : bool :=
  match o with
  | PyLong v => negb (v =? 0)
  | PyDablooms _ => true
  end.

Definition in_operator (r : Z) : option bool :=
  if r <? 0 then None else Some (negb (r =? 0)).
End Binding.

Arguments Done {E A} a st.
Arguments Fault {E A}.

(** The parameters the three tests of [Dablooms_init] and [load_dabloom]
    turn down, and those they let through. *)
Definition rejected (capacity : Z) (error_rate : double)
    (filepath : option string) : Prop :=
  capacity < 1 \/ d_gt error_rate d_one = true \/ d_lt error_rate d_zero = true
  \/ has_path filepath = false.

Definition accepted (capacity : Z) (error_rate : double)
    (filepath : option string) : Prop :=
  1 <= capacity /\ d_gt error_rate d_one = false /\ d_lt error_rate d_zero = false
  /\ has_path filepath = true.

(** The message each test raises. *)
Definition complaint (capacity : Z) (error_rate : double) : string :=
  if capacity <? 1
  then "Bloom creation failed: capacity must be greater than zero"
  else if d_gt error_rate d_one || d_lt error_rate d_zero
  then "Bloom creation failed: error_rate must be between 0 and 1"
  else "Bloom creation failed: filepath required".
End pydablooms.

(** ** The engine

    [dablooms.c] is not among the sources; the definitions of this module
    follow the specification. *)
Module dablooms.

(** Modelled from the spec: what it leaves to the implementation.  The two
    base hashes of a key (4.1), the width of a counter and the ratio of
    counters to capacity (3), the fill threshold (4.3, "e.g. 0.8"), a
    fraction [threshold_num / (threshold_num + threshold_rest)] of the
    capacity, the sizing of the sub-filters after the first, [k] and the
    error budget per sub-filter (4.3), and the header's magic and version
    (3). *)
Class Tuning : Type := {
  hash1 : bytes -> N;
  hash2 : bytes -> N;
  counter_bits : positive;
  load_factor_inverse : positive;
  threshold_num : positive;
  threshold_rest : N;
  next_capacity : positive -> double -> nat -> positive;
  hashes_for : positive -> double -> nat -> positive;
  error_budget : double -> nat -> double;
  MAGIC : N;
  VERSION : N;
}.

Section Engine.
Context {T : Tuning}.

(** Modelled from the spec: the SubFilter of the data model (3).  [adds] is
    the number of add operations applied, the numerator of the fill ratio. *)
Record SubFilter : Type := {
  capacity : positive;
  num_hashes : nat;
  counters : list Z;
  error_rate : double;
  sealed : bool;
  adds : N;
}.

(** Modelled from the spec: the ScalingFilter of the data model (3),
    sub-filters oldest first.  The two sequence numbers are uint64: numbers
    below 2^64, which [create] and [open] give and [next_seqnum] keeps. *)
Record ScalingFilter : Type := {
  target_capacity : positive;
  target_error_rate : double;
  sub_filters : list SubFilter;
  mem_seqnum : N;
  disk_seqnum : N;
  backing_path : string;
}.

(** Modelled from the spec: the largest value a counter holds. *)
Definition counter_max : Z := 2 ^ Z.pos counter_bits - 1.

(** Modelled from the spec: 4.1, position [i] is [(h1 + i*h2) mod capacity],
    for [i] in [0, k). *)
Definition positions (key : bytes) (sf : SubFilter) : list nat :=
  (fun i => N.to_nat ((hash1 key + N.of_nat i * hash2 key) mod N.pos (capacity sf)))
    <$> seq 0 (num_hashes sf).

(** Modelled from the spec: 4.2, the increment of a counter, which stops at
    the largest value. *)
Definition bump (c : Z) : Z := if c <? counter_max then c + 1 else c.

(** Modelled from the spec: 4.2, the decrement of a counter, which leaves
    [0] alone. *)
Definition drop1 (c : Z) : Z := if 0 <? c then c - 1 else c.

(** Modelled from the spec: a sub-filter with its counters and its count of
    adds replaced. *)
Definition with_counters (sf : SubFilter) (cs : list Z) (n : N) : SubFilter :=
  {| capacity := capacity sf; num_hashes := num_hashes sf; counters := cs;
     error_rate := error_rate sf; sealed := sealed sf; adds := n |}.

(** Modelled from the spec: 4.2 [add], one increment per position. *)
Definition sub_add (key : bytes) (sf : SubFilter) : SubFilter :=
  with_counters sf
    (foldl (fun cs p => alter bump p cs) (counters sf) (positions key sf))
    (adds sf + 1).

(** Modelled from the spec: 4.2 [check], all [k] positions above zero. *)
Definition sub_check (key : bytes) (sf : SubFilter) : bool :=
  forallb (fun p => match counters sf !! p with
                    | Some c => 0 <? c
                    | None => false
                    end) (positions key sf).

(** Modelled from the spec: 4.2 [remove]. *)
Definition sub_remove (key : bytes) (sf : SubFilter) : SubFilter :=
  with_counters sf
    (foldl (fun cs p => alter drop1 p cs) (counters sf) (positions key sf))
    (adds sf).

(** Modelled from the spec: the denominator of the fill threshold. *)
Definition threshold_den : N := (N.pos threshold_num + threshold_rest)%N.

(** Modelled from the spec: 4.2 and 4.3, the fill ratio [adds / capacity]
    exceeds the threshold [threshold_num / threshold_den]. *)
Definition fill_exceeds (sf : SubFilter) : bool :=
  (N.pos threshold_num * N.pos (capacity sf) <? threshold_den * adds sf)%N.

(** Modelled from the spec: 4.3, a sub-filter retired from receiving adds. *)
Definition seal (sf : SubFilter) : SubFilter :=
  {| capacity := capacity sf; num_hashes := num_hashes sf;
     counters := counters sf; error_rate := error_rate sf;
     sealed := true; adds := adds sf |}.

(** Modelled from the spec: sub-filter number [i], empty.  The first one is
    sized by the configured capacity (3, lifecycle). *)
Definition new_sub_filter (tc : positive) (te : double) (i : nat) : SubFilter :=
  let cap := match i with O => tc | S _ => next_capacity tc te i end in
  {| capacity := cap;
     num_hashes := Pos.to_nat (hashes_for tc te i);
     counters := replicate (Pos.to_nat (cap * load_factor_inverse)) 0;
     error_rate := error_budget te i;
     sealed := false;
     adds := 0 |}.

(** Modelled from the spec: 4.4 on the uint64 of 3: a sequence number
    grows by one, and 2^64 - 1 is followed by 0. *)
Definition next_seqnum (n : N) : N := ((n + 1) mod 2 ^ 64)%N.

(** Modelled from the spec: a filter with its sub-filters and its memory
    sequence number replaced. *)
Definition with_subs (s : ScalingFilter) (subs : list SubFilter) (mem : N)
  : ScalingFilter :=
  {| target_capacity := target_capacity s;
     target_error_rate := target_error_rate s;
     sub_filters := subs; mem_seqnum := mem; disk_seqnum := disk_seqnum s;
     backing_path := backing_path s |}.

(** Modelled from the spec: 4.3 [add] with 4.4.  The add goes to the active
    sub-filter, the last one; when that leaves it over the threshold it is
    sealed and a new one appended.  The result is the status and the filter.
    A filter without an unsealed last sub-filter is outside the state
    machine of 4.3; the model refuses the add there. *)
Definition scaling_add (key : bytes) (id : Z) (s : ScalingFilter)
  : Z * ScalingFilter :=
  match rev (sub_filters s) with
  | act :: older =>
    if sealed act then (-1, s) else
    let act' := sub_add key act in
    let subs :=
      if fill_exceeds act'
      then new_sub_filter (target_capacity s) (target_error_rate s)
             (length (sub_filters s)) :: seal act' :: older
      else act' :: older in
    (0, with_subs s (rev subs) (next_seqnum (mem_seqnum s)))
  | [] => (-1, s)
  end.

(** Modelled from the spec: 4.3 [check], true when some sub-filter says so. *)
Definition scaling_check (key : bytes) (s : ScalingFilter) : bool :=
  existsb (sub_check key) (sub_filters s).

(** Modelled from the spec: 4.3 [delete], on the sub-filters newest first:
    the first one whose [check] holds is decremented and the walk stops. *)
Fixpoint remove_first (key : bytes) (newest_first : list SubFilter)
  : list SubFilter :=
  match newest_first with
  | [] => []
  | sf :: rest =>
    if sub_check key sf then sub_remove key sf :: rest
    else sf :: remove_first key rest
  end.

(** Modelled from the spec: 4.3 [delete] with 4.4: the status, 0 also when
    no sub-filter held the key (7), and the filter. *)
Definition scaling_remove (key : bytes) (id : Z) (s : ScalingFilter)
  : Z * ScalingFilter :=
  (0, with_subs s (rev (remove_first key (rev (sub_filters s))))
        (next_seqnum (mem_seqnum s))).
(** Modelled from the spec: the on-disk layout (3, 6): a header with one
    descriptor per sub-filter, then the counter regions.  The byte layout is
    left open by the spec; a file is its header, absent when the file is too
    short to hold one, and the counter bytes that follow it. *)
Record Descriptor : Type := {
  d_capacity : positive;
  d_num_hashes : nat;
  d_offset : nat;
  d_length : nat;
}.

(** Modelled from the spec: the Header of the data model (3). *)
Record Header : Type := {
  h_magic : N;
  h_version : N;
  h_target_capacity : positive;
  h_target_error_rate : double;
  h_mem_seqnum : N;
  h_disk_seqnum : N;
  h_descriptors : list Descriptor;
}.

(** Modelled from the spec: a file, its header and the counter bytes. *)
Record FileImage : Type := {
  f_header : option Header;
  f_regions : list N;
}.

(** Modelled from the spec: what the engine sees of its environment: the
    files as they are on stable storage, and whether the storage accepts
    file creation, mapping and the durability barrier. *)
Record World : Type := {
  disk : gmap string FileImage;
  io_ok : bool;
}.

(** Modelled from the spec: the error kinds of 7. *)
Inductive Error : Type :=
| ConfigurationError
| CorruptFileError
| IOError.

(** Modelled from the spec: the descriptors of a sequence of sub-filters,
    the first region at offset [off]. *)
Fixpoint describe (off : nat) (subs : list SubFilter) : list Descriptor :=
  match subs with
  | [] => []
  | sf :: rest =>
    {| d_capacity := capacity sf; d_num_hashes := num_hashes sf;
       d_offset := off; d_length := length (counters sf) |}
    :: describe (off + length (counters sf)) rest
  end.

(** Modelled from the spec: the file that holds filter [s]. *)
Definition image (s : ScalingFilter) : FileImage :=
  {| f_header := Some
       {| h_magic := MAGIC; h_version := VERSION;
          h_target_capacity := target_capacity s;
          h_target_error_rate := target_error_rate s;
          h_mem_seqnum := mem_seqnum s;
          h_disk_seqnum := disk_seqnum s;
          h_descriptors := describe 0 (sub_filters s) |};
     f_regions := concat ((fun sf => Z.to_N <$> counters sf) <$> sub_filters s) |}.

(** Modelled from the spec: the storage after the file of [s] is written
    at [path]. *)
Definition store (path : string) (s : ScalingFilter) (w : World) : World :=
  {| disk := <[path := image s]> (disk w); io_ok := io_ok w |}.

(** Modelled from the spec: the parameter rules of 6 and 7. *)
Definition valid_config (capacity : Z) (error_rate : double) (path : string)
  : bool :=
  (1 <=? capacity) && d_le d_zero error_rate && d_le error_rate d_one
  && negb (Nat.eqb (strlen path) 0).

(** Modelled from the spec: 4.5 [create], with the errors of 7; sequence
    numbers start at zero (8, scenario 4). *)
Definition create (path : string) (capacity : Z) (error_rate : double)
    (w : World) : Error + ScalingFilter * World :=
  if negb (valid_config capacity error_rate path) then inl ConfigurationError
  else if negb (io_ok w) then inl IOError
  else
    let tc := Z.to_pos capacity in
    let s := {| target_capacity := tc; target_error_rate := error_rate;
                sub_filters := [new_sub_filter tc error_rate 0];
                mem_seqnum := 0; disk_seqnum := 0; backing_path := path |} in
    inr (s, store path s w).

(** Modelled from the spec: the regions the descriptors name lie inside the
    file. *)
Definition fits (data : list N) (d : Descriptor) : bool :=
  (d_offset d + d_length d <=? length data)%nat.

(** Modelled from the spec: 4.5 [open], the sub-filters read back from their
    descriptors; all but the last are sealed.  The header carries no fill
    count, the sub-filters come back with none. *)
Fixpoint rebuild (te : double) (i : nat) (ds : list Descriptor) (data : list N)
  : list SubFilter :=
  match ds with
  | [] => []
  | d :: rest =>
    {| capacity := d_capacity d; num_hashes := d_num_hashes d;
       counters := Z.of_N <$> take (d_length d) (drop (d_offset d) data);
       error_rate := error_budget te i;
       sealed := match rest with [] => false | _ => true end;
       adds := 0 |}
    :: rebuild te (S i) rest data
  end.

(** Modelled from the spec: 4.5 [open] with the errors of 7, and 4.4: both
    sequence numbers start from the header's last-flushed value, a 64-bit
    field.  Capacity and error rate come from the header, not from the
    caller. *)
Definition open (path : string) (w : World) : Error + ScalingFilter * World :=
  match disk w !! path with
  | None => inl IOError
  | Some f =>
    match f_header f with
    | None => inl CorruptFileError
    | Some h =>
      if negb ((h_magic h =? MAGIC)%N && (h_version h =? VERSION)%N)
      then inl CorruptFileError
      else if negb (forallb (fits (f_regions f)) (h_descriptors h))
      then inl CorruptFileError
      else if negb (io_ok w) then inl IOError
      else
        inr ({| target_capacity := h_target_capacity h;
                target_error_rate := h_target_error_rate h;
                sub_filters := rebuild (h_target_error_rate h) 0
                                 (h_descriptors h) (f_regions f);
                mem_seqnum := (h_disk_seqnum h mod 2 ^ 64)%N;
                disk_seqnum := (h_disk_seqnum h mod 2 ^ 64)%N;
                backing_path := path |}, w)
    end
  end.

(** Modelled from the spec: a backing file that is absent, truncated, or
    whose header fails the validation of 4.5 and 7. *)
Definition unusable (path : string) (w : World) : Prop :=
  match disk w !! path with
  | None => True
  | Some f =>
    match f_header f with
    | None => True
    | Some h =>
      h_magic h <> MAGIC \/ h_version h <> VERSION
      \/ forallb (fits (f_regions f)) (h_descriptors h) = false
    end
  end.

(** Modelled from the spec: 4.5 [flush] with 4.4: on success the disk
    sequence number becomes the memory one and the file holds the filter; on
    failure nothing changes and the status is not zero. *)
Definition flush (s : ScalingFilter) (w : World) : Z * ScalingFilter * World :=
  if io_ok w then
    let s' := {| target_capacity := target_capacity s;
                 target_error_rate := target_error_rate s;
                 sub_filters := sub_filters s;
                 mem_seqnum := mem_seqnum s;
                 disk_seqnum := mem_seqnum s;
                 backing_path := backing_path s |} in
    (0, s', store (backing_path s) s' w)
  else (-1, s, w).

(** Modelled from the spec: a constructor that fails returns a null
    pointer, whatever the error. *)
Definition as_pointer (r : Error + ScalingFilter * World) (w : World)
  : option ScalingFilter * World :=
  match r with
  | inl _ => (None, w)
  | inr (s, w') => (Some s, w')
  end.

(** Modelled from the spec: the engine behind the interface of the binding.
    The sequence numbers are handed out as they are. *)
#[export] Instance engine : Engine := {|
  scaling_bloom_t := ScalingFilter;
  world := World;
  new_scaling_bloom capacity error_rate path w :=
    as_pointer (create path capacity error_rate w) w;
  new_scaling_bloom_from_file capacity error_rate path w :=
    as_pointer (open path w) w;
  free_scaling_bloom _ w := w;
  scaling_bloom_add s key id w :=
    let '(r, s') := scaling_add key id s in (r, s', w);
  scaling_bloom_remove s key id w :=
    let '(r, s') := scaling_remove key id s in (r, s', w);
  scaling_bloom_check s key := if scaling_check key s then 1 else 0;
  scaling_bloom_flush := flush;
  scaling_bloom_mem_seqnum s := Z.of_N (mem_seqnum s);
  scaling_bloom_disk_seqnum s := Z.of_N (disk_seqnum s);
|}.

(** Modelled from the spec: the invariants of a sub-filter (3, 4.1): every
    position falls on a counter, [k] is at least one and no counter is
    negative. *)
Definition wf_sub (sf : SubFilter) : Prop :=
  (Pos.to_nat (capacity sf) <= length (counters sf))%nat
  /\ (0 < num_hashes sf)%nat
  /\ Forall (fun c => 0 <= c) (counters sf).

(** Modelled from the spec: the invariants of a filter: those of its
    sub-filters, and an active sub-filter at the end (4.3). *)
Definition wf (s : ScalingFilter) : Prop :=
  Forall wf_sub (sub_filters s)
  /\ exists older act, sub_filters s = older ++ [act] /\ sealed act = false.

(** Modelled from the spec: the number of times [q] occurs among the
    positions [ps] (4.1: the positions of a key may repeat). *)
Definition hits (q : nat) (ps : list nat) : nat :=
  length (filter (fun p => p = q) ps).

(** Modelled from the spec: "no other key sharing k's hash positions" (8):
    in every sub-filter the counters at the positions of [key] are zero. *)
Definition untouched (key : bytes) (s : ScalingFilter) : Prop :=
  forall sf, sf ∈ sub_filters s ->
  forall p, p ∈ positions key sf -> counters sf !! p = Some 0.

(** Modelled from the spec: "counters are never negative" (3). *)
Definition nonneg (s : ScalingFilter) : Prop :=
  Forall (fun sf => Forall (fun c => 0 <= c) (counters sf)) (sub_filters s).

(** Modelled from the spec: what happened to a filter last, failed flushes
    aside: it was made (constructed or loaded), mutated (an add or a delete
    succeeded) or flushed with success. *)
Inductive Since : Type :=
| Made
| Mutated
| Flushed.

(** Modelled from the spec: the states a filter can be in: those [create]
    and [open] return and those the operations of 6 lead to, with what
    happened last and the number of adds and deletes that succeeded since
    the filter was made or last flushed with success. *)
Inductive reachable : ScalingFilter -> Since -> N -> Prop :=
| reach_create path capacity error_rate w s w' :
    create path capacity error_rate w = inr (s, w') -> reachable s Made 0
| reach_open path w s w' :
    open path w = inr (s, w') -> reachable s Made 0
| reach_add key id s e k s' :
    reachable s e k -> scaling_add key id s = (0, s') ->
    reachable s' Mutated (k + 1)
| reach_remove key id s e k s' :
    reachable s e k -> scaling_remove key id s = (0, s') ->
    reachable s' Mutated (k + 1)
| reach_flush_ok s e k w s' w' :
    reachable s e k -> flush s w = (0, s', w') -> reachable s' Flushed 0
| reach_flush_failed s e k w r s' w' :
    reachable s e k -> flush s w = (r, s', w') -> r <> 0 -> reachable s' e k.

(** Modelled from the spec: what reopening reproduces of a sub-filter (6):
    its capacity, its [k] and its counters; the fill count starts anew. *)
Definition same_geometry (sf sf' : SubFilter) : Prop :=
  capacity sf' = capacity sf /\ num_hashes sf' = num_hashes sf
  /\ counters sf' = counters sf /\ adds sf' = 0%N.

(** Modelled from the spec: the filters the engine itself produces: those
    [create] returns, those an add, a delete or a flush leaves, and those
    [open] reads back from the file of such a filter (3, lifecycle). *)
Inductive built : ScalingFilter -> Prop :=
| built_create path capacity error_rate w s w' :
    create path capacity error_rate w = inr (s, w') -> built s
| built_add key id s :
    built s -> built (scaling_add key id s).2
| built_remove key id s :
    built s -> built (scaling_remove key id s).2
| built_flush s w :
    built s -> built (flush s w).1.2
| built_reopen s path w s' w' :
    built s -> disk w !! path = Some (image s) ->
    open path w = inr (s', w') -> built s'.

(** Modelled from the spec: 4.3, the filter before its first sealing.  While
    a filter made with capacity [tc] has one sub-filter, that one
    has taken every add, [n] of them, and is not over the threshold. *)
Definition still_single (tc : positive) (n : N) (s : ScalingFilter) : Prop :=
  (2 <= length (sub_filters s))%nat
  \/ exists sf, sub_filters s = [sf] /\ fill_exceeds sf = false
                /\ adds sf = n /\ capacity sf = tc.

(** Modelled from the spec: a run of adds (8, scenario 3): the statuses in
    order and the filter at the end. *)
Fixpoint add_all (items : list (bytes * Z)) (s : ScalingFilter)
  : list Z * ScalingFilter :=
  match items with
  | [] => ([], s)
  | (key, id) :: rest =>
    let '(r, s') := scaling_add key id s in
    let '(rs, s'') := add_all rest s' in
    (r :: rs, s'')
  end.
End Engine.
(** Modelled from the spec: a hash of a key, for the tuning below. *)
Definition poly_hash (base seed : N) (key : bytes) : N :=
  foldl (fun h b => ((h * base + Byte.to_N b) mod 2 ^ 32)%N) seed key.

(** Modelled from the spec: the error rate 1/2 of the runs below. *)
Definition d_half : double := S754_finite false 4503599627370496 (-53).

(** Modelled from the spec: one choice of what the spec leaves open, to run
    the model on: two polynomial hashes, 4-bit counters, one counter per
    unit of capacity, threshold 4/5, capacities doubling, three hashes per
    key and error budgets halving from one sub-filter to the next. *)
Definition reference_tuning : Tuning := {|
  hash1 := poly_hash 31 7;
  hash2 := poly_hash 131 1;
  counter_bits := 4;
  load_factor_inverse := 1;
  threshold_num := 4;
  threshold_rest := 1;
  next_capacity tc _ i := (tc * 2 ^ Pos.of_nat i)%positive;
  hashes_for _ _ _ := 3%positive;
  error_budget te i := Nat.iter i (SFmul 53 1024 d_half) te;
  MAGIC := 3735928559;
  VERSION := 1;
|}.

(** Modelled from the spec: storage with no file on it, in working order. *)
Definition empty_disk : World := {| disk := ∅; io_ok := true |}.

(** Modelled from the spec: storage on which file creation, mapping and the
    durability barrier fail. *)
Definition failing_disk : World := {| disk := ∅; io_ok := false |}.
(** Modelled from the spec: the filter [create] makes on the reference
    tuning for capacity 3 and error rate 1/2. *)
Definition small_filter : ScalingFilter :=
  {| target_capacity := 3; target_error_rate := d_half;
     sub_filters := [@new_sub_filter reference_tuning 3 d_half 0];
     mem_seqnum := 0; disk_seqnum := 0; backing_path := "f" |}.

(** Modelled from the spec: the key "foo" of scenario 2 (8). *)
Definition key_foo : bytes := [Byte.x66; Byte.x6f; Byte.x6f].

(** Modelled from the spec: another key, "bar". *)
Definition key_bar : bytes := [Byte.x62; Byte.x61; Byte.x72].

(** Modelled from the spec: key number [n], two bytes, and the first [n]
    keys with their identifiers, as in the scenarios of 8. *)
Definition key_no (n : nat) : bytes :=
  match Byte.of_nat (n / 256), Byte.of_nat (n mod 256) with
  | Some a, Some b => [a; b]
  | _, _ => []
  end.

(** Modelled from the spec: the keys 1 to [n] with the identifiers 1 to [n]. *)
Definition keys_upto (n : nat) : list (bytes * Z) :=
  (fun i => (key_no i, Z.of_nat i)) <$> seq 1 n.

(** Modelled from the spec: a file whose header passes the validation of
    the reference tuning, with the descriptors [ds], the counter bytes
    [data] and [seq] as last-flushed sequence number. *)
Definition file_with (ds : list Descriptor) (data : list N) (seq : N)
  : FileImage :=
  {| f_header := Some
       {| h_magic := @MAGIC reference_tuning;
          h_version := @VERSION reference_tuning;
          h_target_capacity := 3; h_target_error_rate := d_half;
          h_mem_seqnum := seq; h_disk_seqnum := seq; h_descriptors := ds |};
     f_regions := data |}.

(** Modelled from the spec: working storage that holds the one file [f] at
    the path "f". *)
Definition disk_with (f : FileImage) : World :=
  {| disk := {["f"%string := f]}; io_ok := true |}.


(** Modelled from the spec: a file whose one descriptor names no hashes. *)
Definition no_hash_disk : World :=
  disk_with (file_with [{| d_capacity := 3; d_num_hashes := 0;
                           d_offset := 0; d_length := 3 |}] [0; 0; 0]%N 0).


(** Modelled from the spec: the file of an empty filter of capacity 3 that
    was last flushed at sequence number 2^64 - 1. *)
Definition last_seqnum_disk : World :=
  disk_with (file_with [{| d_capacity := 3; d_num_hashes := 3;
                           d_offset := 0; d_length := 3 |}] [0; 0; 0]%N
               (2 ^ 64 - 1)).

(** Modelled from the spec: [small_filter] after two adds and a flush that
    succeeds. *)
Definition flushed_filter : ScalingFilter :=
  (@flush reference_tuning
     (@add_all reference_tuning [(key_foo, 1); (key_bar, 2)] small_filter).2
     (@store reference_tuning "f" small_filter empty_disk)).1.2.

(** Modelled from the spec: [flushed_filter] after one more add. *)
Definition used_filter : ScalingFilter :=
  (@scaling_add reference_tuning key_foo 3 flushed_filter).2.



(** Modelled from the spec: the filter [open] reads from the file at "f"
    of the storage [w] ([small_filter] when it reads none). *)
Definition opened (w : World) : ScalingFilter :=
  match @open reference_tuning "f" w with
  | inr (s, _) => s
  | inl _ => small_filter
  end.


(** Modelled from the spec: the filter read from [last_seqnum_disk], after
    one add. *)
Definition wrapped_filter : ScalingFilter :=
  (@scaling_add reference_tuning key_foo 1 (opened last_seqnum_disk)).2.

(** Modelled from the spec: [small_filter] after one add of "foo". *)
Definition foo_filter : ScalingFilter :=
  (@scaling_add reference_tuning key_foo 1 small_filter).2.

(** Modelled from the spec: a new filter of capacity 100 on the reference
    tuning. *)
Definition hundred_filter : ScalingFilter :=
  {| target_capacity := 100; target_error_rate := d_half;
     sub_filters := [@new_sub_filter reference_tuning 100 d_half 0];
     mem_seqnum := 0; disk_seqnum := 0; backing_path := "f" |}.

(** Modelled from the spec: [hundred_filter] after sixteen adds of "foo",
    one more than a counter holds. *)
Definition saturated_filter : ScalingFilter :=
  (@add_all reference_tuning (replicate 16 (key_foo, 1)) hundred_filter).2.

(** Modelled from the spec: the one sub-filter of [saturated_filter]. *)
Definition saturated_sub : SubFilter :=
  match sub_filters saturated_filter with
  | sf :: _ => sf
  | [] => @new_sub_filter reference_tuning 100 d_half 0
  end.
End dablooms.

(** * Theorems *)

(** ** Comparisons of [double] *)

Lemma compare_cont_flip p q :
  Pos.compare_cont Eq q p = CompOpp (Pos.compare_cont Eq p q).
Proof. by rewrite Pos.compare_cont_antisym. Qed.

Lemma SFcompare_antisym x y : SFcompare y x = CompOpp <$> SFcompare x y.
Proof.
  destruct x as [[]|[]| |[] m1 e1], y as [[]|[]| |[] m2 e2]; try reflexivity; simpl;
    rewrite (Z.compare_antisym e1 e2); destruct (e1 ?= e2); simpl; try reflexivity;
    rewrite (compare_cont_flip m1 m2); by rewrite ?CompOpp_involutive.
Qed.

Lemma SFcompare_some x y :
  is_nan x = false -> is_nan y = false -> exists c, SFcompare x y = Some c.
Proof. destruct x, y; intros; try done; by eexists. Qed.

Lemma ltb_not_leb x y :
  is_nan x = false -> is_nan y = false -> SFltb y x = negb (SFleb x y).
Proof.
  intros Hx Hy. unfold SFltb, SFleb. rewrite (SFcompare_antisym x y).
  destruct (SFcompare_some x y Hx Hy) as [c ->]. by destruct c.
Qed.

(** On every [double] but a NaN, the test of the source,
    [error_rate > 1 || error_rate < 0], is the test "outside [0, 1]". *)
Lemma rate_test_complete e :
  is_nan e = false ->
  d_gt e d_one || d_lt e d_zero = negb (d_le d_zero e && d_le e d_one).
Proof.
  intros Hnan. unfold d_gt, d_lt, d_le.
  rewrite (ltb_not_leb e d_one Hnan eq_refl), (ltb_not_leb d_zero e eq_refl Hnan).
  destruct (SFleb d_zero e), (SFleb e d_one); done.
Qed.

Module dablooms_facts.
Import dablooms.
Section Facts.
Context {T : Tuning}.

Lemma counter_max_pos : 1 <= counter_max.
Proof.
  unfold counter_max.
  assert (2 ^ 1 <= 2 ^ Z.pos counter_bits) by (apply Z.pow_le_mono_r; lia).
  change (2 ^ 1) with 2 in *. lia.
Qed.

Lemma bump_iter n c :
  0 <= c <= counter_max -> Nat.iter n bump c = Z.min (c + Z.of_nat n) counter_max.
Proof.
  induction n as [|n IH]; intros Hc; simpl.
  - lia.
  - rewrite IH by done. unfold bump.
    destruct (Z.ltb_spec (Z.min (c + Z.of_nat n) counter_max) counter_max); lia.
Qed.

Lemma drop1_iter n c :
  0 <= c -> Nat.iter n drop1 c = Z.max (c - Z.of_nat n) 0.
Proof.
  induction n as [|n IH]; intros Hc; simpl.
  - lia.
  - rewrite IH by done. unfold drop1.
    destruct (Z.ltb_spec 0 (Z.max (c - Z.of_nat n) 0)); lia.
Qed.

Lemma bump_iter_ge n c : c <= Nat.iter n bump c.
Proof.
  induction n as [|n IH]; simpl; [lia|].
  unfold bump at 1. destruct (Z.ltb_spec (Nat.iter n bump c) counter_max); lia.
Qed.


Lemma foldl_alter_length (f : Z -> Z) (ps : list nat) (cs : list Z) :
  length (foldl (fun cs p => alter f p cs) cs ps) = length cs.
Proof.
  revert cs. induction ps as [|p ps IH]; intros cs; simpl; [done|].
  by rewrite IH, length_alter.
Qed.

Lemma foldl_alter_lookup (f : Z -> Z) (ps : list nat) (cs : list Z) (q : nat) :
  foldl (fun cs p => alter f p cs) cs ps !! q
  = Nat.iter (hits q ps) f <$> cs !! q.
Proof.
  revert cs. induction ps as [|p ps IH]; intros cs; simpl.
  - unfold hits. simpl. by destruct (cs !! q).
  - rewrite IH. unfold hits. rewrite filter_cons.
    destruct (decide (p = q)) as [->|Hne].
    + rewrite list_lookup_alter_eq. simpl.
      destruct (cs !! q); simpl; [|done].
      f_equal. symmetry. apply Nat.iter_succ_r.
    + by rewrite list_lookup_alter_ne.
Qed.
Lemma positions_lt key sf p :
  p ∈ positions key sf -> (p < Pos.to_nat (capacity sf))%nat.
Proof.
  unfold positions. intros (i & -> & _)%list_elem_of_fmap.
  pose proof (N.mod_upper_bound (hash1 key + N.of_nat i * hash2 key)
                (N.pos (capacity sf))) as Hlt.
  lia.
Qed.

Lemma positions_first key sf :
  (0 < num_hashes sf)%nat -> exists p, p ∈ positions key sf.
Proof.
  unfold positions. destruct (num_hashes sf) as [|k]; [lia|]. intros _.
  simpl. eexists. apply list_elem_of_here.
Qed.

Lemma sub_check_true key sf :
  sub_check key sf = true
  <-> forall p, p ∈ positions key sf ->
        exists c, counters sf !! p = Some c /\ 0 < c.
Proof.
  unfold sub_check. rewrite forallb_forall. split.
  - intros H p Hp%list_elem_of_In. specialize (H p Hp).
    destruct (counters sf !! p) as [c|]; [|done].
    exists c. split; [done|]. by apply Z.ltb_lt.
  - intros H p Hp%list_elem_of_In. destruct (H p Hp) as (c & -> & Hc).
    by apply Z.ltb_lt.
Qed.

Lemma sub_check_zero key sf p :
  p ∈ positions key sf ->
  (forall c, counters sf !! p = Some c -> c = 0) ->
  sub_check key sf = false.
Proof.
  intros Hp Hz. apply not_true_is_false. intros H.
  destruct (proj1 (sub_check_true key sf) H p Hp) as (c & Hc & Hpos).
  apply Hz in Hc. lia.
Qed.

Lemma sub_add_lookup key sf q :
  counters (sub_add key sf) !! q
  = Nat.iter (hits q (positions key sf)) bump <$> counters sf !! q.
Proof. apply foldl_alter_lookup. Qed.

Lemma sub_remove_lookup key sf q :
  counters (sub_remove key sf) !! q
  = Nat.iter (hits q (positions key sf)) drop1 <$> counters sf !! q.
Proof. apply foldl_alter_lookup. Qed.

Lemma hits_pos q (ps : list nat) : q ∈ ps -> (0 < hits q ps)%nat.
Proof.
  intros Hq. unfold hits.
  assert (q ∈ filter (fun p => p = q) ps) as Hin
    by (apply list_elem_of_filter; done).
  destruct (filter (fun p => p = q) ps); [by apply elem_of_nil in Hin|simpl; lia].
Qed.

Lemma bump_iter_pos n c : 0 <= c -> (0 < n)%nat -> 0 < Nat.iter n bump c.
Proof.
  intros Hc Hn. destruct n as [|n]; [lia|]. simpl.
  pose proof (bump_iter_ge n c). pose proof counter_max_pos.
  generalize dependent (Nat.iter n bump c). intros x Hx. unfold bump.
  destruct (Z.ltb_spec x counter_max); lia.
Qed.

Lemma nonneg_lookup (cs : list Z) q c :
  Forall (fun c => 0 <= c) cs -> cs !! q = Some c -> 0 <= c.
Proof. intros H Hq. by apply (Forall_lookup_1 _ _ _ _ H Hq). Qed.

Lemma nonneg_foldl_alter (f : Z -> Z) (ps : list nat) (cs : list Z) :
  (forall c, 0 <= c -> 0 <= f c) ->
  Forall (fun c => 0 <= c) cs ->
  Forall (fun c => 0 <= c) (foldl (fun cs p => alter f p cs) cs ps).
Proof.
  intros Hf. revert cs. induction ps as [|p ps IH]; intros cs Hcs; simpl; [done|].
  apply IH. apply Forall_alter; [done|]. intros c _. apply Hf.
Qed.
Lemma bump_nonneg c : 0 <= c -> 0 <= bump c.
Proof. unfold bump. destruct (c <? counter_max); lia. Qed.

Lemma drop1_nonneg c : 0 <= c -> 0 <= drop1 c.
Proof. unfold drop1. destruct (Z.ltb_spec 0 c); lia. Qed.

Lemma wf_sub_add key sf : wf_sub sf -> wf_sub (sub_add key sf).
Proof.
  intros (Hlen & Hk & Hpos). repeat split; simpl.
  - by rewrite foldl_alter_length.
  - done.
  - apply nonneg_foldl_alter; [apply bump_nonneg|done].
Qed.

Lemma wf_sub_remove key sf : wf_sub sf -> wf_sub (sub_remove key sf).
Proof.
  intros (Hlen & Hk & Hpos). repeat split; simpl.
  - by rewrite foldl_alter_length.
  - done.
  - apply nonneg_foldl_alter; [apply drop1_nonneg|done].
Qed.

Lemma wf_sub_seal sf : wf_sub sf -> wf_sub (seal sf).
Proof. intros H. exact H. Qed.

Lemma wf_sub_new tc te i : wf_sub (new_sub_filter tc te i).
Proof.
  repeat split; simpl.
  - rewrite length_replicate, Pos2Nat.inj_mul.
    pose proof (Pos2Nat.is_pos load_factor_inverse). nia.
  - lia.
  - apply Forall_replicate. lia.
Qed.

Lemma sub_check_add key sf : wf_sub sf -> sub_check key (sub_add key sf) = true.
Proof.
  intros (Hlen & Hk & Hpos). apply sub_check_true. intros p Hp.
  change (positions key (sub_add key sf)) with (positions key sf) in Hp.
  pose proof (positions_lt _ _ _ Hp) as Hlt.
  destruct (lookup_lt_is_Some_2 (counters sf) p) as [c Hc]; [lia|].
  rewrite sub_add_lookup, Hc. simpl. eexists. split; [done|].
  apply bump_iter_pos; [by eapply nonneg_lookup|by apply hits_pos].
Qed.

Lemma sub_check_mono key key' sf :
  sub_check key sf = true -> sub_check key (sub_add key' sf) = true.
Proof.
  rewrite !sub_check_true. intros H p Hp.
  change (positions key (sub_add key' sf)) with (positions key sf) in Hp.
  destruct (H p Hp) as (c & Hc & Hpos).
  rewrite sub_add_lookup, Hc. simpl. eexists. split; [done|].
  pose proof (bump_iter_ge (hits p (positions key' sf)) c). lia.
Qed.

(** What an add does to a well-formed filter. *)
Lemma scaling_add_wf key id s :
  wf s ->
  exists s',
    scaling_add key id s = (0, s')
    /\ wf s'
    /\ scaling_check key s' = true
    /\ (forall k, scaling_check k s = true -> scaling_check k s' = true)
    /\ mem_seqnum s' = next_seqnum (mem_seqnum s)
    /\ disk_seqnum s' = disk_seqnum s
    /\ target_capacity s' = target_capacity s
    /\ (length (sub_filters s) <= length (sub_filters s'))%nat.
Proof.
  intros [Hall (older & act & Hsubs & Hun)].
  assert (wf_sub act /\ Forall wf_sub older) as [Hact Holder].
  { rewrite Hsubs in Hall. apply Forall_app in Hall as [? Hl].
    split; [by inversion Hl|done]. }
  unfold scaling_add. rewrite Hsubs, rev_app_distr. simpl. rewrite Hun.
  assert (forall k, scaling_check k s = true ->
            existsb (sub_check k) older = true
            \/ sub_check k (sub_add key act) = true) as Hmono.
  { intros k. unfold scaling_check. rewrite Hsubs, existsb_app. simpl.
    rewrite orb_false_r. intros [?|?]%orb_true_iff; [by left|right].
    by apply sub_check_mono. }
  destruct (fill_exceeds (sub_add key act)); eexists; (split; [reflexivity|]).
  - simpl. rewrite rev_involutive, <- app_assoc. simpl.
    repeat split.
    + apply Forall_app. split; [done|].
      constructor; [by apply wf_sub_seal, wf_sub_add|].
      constructor; [apply wf_sub_new|constructor].
    + exists (older ++ [seal (sub_add key act)]). eexists.
      split; [by rewrite <- app_assoc|done].
    + unfold scaling_check. simpl. rewrite existsb_app. simpl.
      change (sub_check key (seal (sub_add key act)))
        with (sub_check key (sub_add key act)).
      rewrite sub_check_add by done. simpl. apply orb_true_r.
    + intros k Hk. unfold scaling_check. simpl. rewrite existsb_app. simpl.
      change (sub_check k (seal (sub_add key act)))
        with (sub_check k (sub_add key act)).
      destruct (Hmono k Hk) as [->| ->]; [done|]. simpl. apply orb_true_r.
    + rewrite !length_app. simpl. lia.
  - simpl. rewrite rev_involutive.
    repeat split.
    + apply Forall_app. split; [done|].
      constructor; [by apply wf_sub_add|constructor].
    + by exists older, (sub_add key act).
    + unfold scaling_check. simpl. rewrite existsb_app. simpl.
      rewrite sub_check_add by done. simpl. apply orb_true_r.
    + intros k Hk. unfold scaling_check. simpl. rewrite existsb_app. simpl.
      destruct (Hmono k Hk) as [->| ->]; [done|]. simpl. apply orb_true_r.
    + rewrite !length_app. simpl. lia.
Qed.
Lemma sub_check_untouched key sf :
  (0 < num_hashes sf)%nat ->
  (forall p c, p ∈ positions key sf -> counters sf !! p = Some c -> c = 0) ->
  sub_check key sf = false.
Proof.
  intros Hk Hz. destruct (positions_first key sf Hk) as [p Hp].
  apply (sub_check_zero key sf p Hp). intros c. by apply Hz.
Qed.

Lemma sub_check_new key tc te i : sub_check key (new_sub_filter tc te i) = false.
Proof.
  apply sub_check_untouched; [apply wf_sub_new|].
  intros p c _ Hc. simpl in Hc. by apply lookup_replicate in Hc as [-> _].
Qed.

(** In a sub-filter whose counters at the positions of [key] are zero, an
    add of [key] followed by its removal leaves them zero. *)
Lemma sub_add_remove_zero key sf p :
  p ∈ positions key sf ->
  counters sf !! p = Some 0 ->
  counters (sub_remove key (sub_add key sf)) !! p = Some 0.
Proof.
  intros Hp Hz. rewrite sub_remove_lookup, sub_add_lookup, Hz. simpl.
  change (positions key (sub_add key sf)) with (positions key sf).
  pose proof counter_max_pos.
  rewrite bump_iter by lia. rewrite drop1_iter by lia. f_equal. lia.
Qed.

Lemma existsb_false {A} (f : A -> bool) (l : list A) :
  existsb f l = false <-> forall x, x ∈ l -> f x = false.
Proof.
  induction l as [|a l IH]; simpl.
  - split; [intros _ x Hx; by apply elem_of_nil in Hx|done].
  - rewrite orb_false_iff, IH. split.
    + intros [Ha Hl] x [->|Hx]%elem_of_cons; auto.
    + intros H. split; [apply H; left|intros x Hx; apply H; by right].
Qed.

Lemma remove_first_Forall (P : SubFilter -> Prop) key l :
  (forall sf, P sf -> P (sub_remove key sf)) ->
  Forall P l -> Forall P (remove_first key l).
Proof.
  intros HP. induction 1 as [|sf l Hsf Hl IH]; simpl; [constructor|].
  destruct (sub_check key sf); constructor; auto.
Qed.


Lemma Forall_reversed {A} (P : A -> Prop) (l : list A) : Forall P l -> Forall P (rev l).
Proof.
  rewrite !Forall_forall. intros H x Hx. apply H.
  apply list_elem_of_In, in_rev. by apply list_elem_of_In in Hx.
Qed.

(** What a delete does to a well-formed filter. *)
Lemma scaling_remove_wf key id s :
  wf s -> wf (scaling_remove key id s).2.
Proof.
  intros [Hall (older & act & Hsubs & Hun)]. unfold scaling_remove, wf. simpl.
  split.
  - apply Forall_reversed, remove_first_Forall; [apply wf_sub_remove|].
    by apply Forall_reversed.
  - rewrite Hsubs, rev_app_distr. simpl.
    destruct (sub_check key act); simpl.
    + exists (rev (rev older)), (sub_remove key act). done.
    + exists (rev (remove_first key (rev older))), act. done.
Qed.

(** An add that returns 0, on any filter. *)
Lemma scaling_add_inv key id s s' :
  scaling_add key id s = (0, s') ->
  mem_seqnum s' = next_seqnum (mem_seqnum s)
  /\ disk_seqnum s' = disk_seqnum s
  /\ (nonneg s -> nonneg s').
Proof.
  unfold scaling_add. destruct (rev (sub_filters s)) as [|act older] eqn:Hrev;
    [intros [=]|].
  destruct (sealed act); [intros [=]|].
  intros [= <-]. simpl. repeat split. unfold nonneg. simpl. intros Hs.
  apply Forall_reversed in Hs. rewrite Hrev in Hs.
  inversion Hs as [|? ? Hact Hold]; subst.
  assert (Forall (fun c => 0 <= c) (counters (sub_add key act))) as Hact'
    by (apply nonneg_foldl_alter; [apply bump_nonneg|done]).
  destruct (fill_exceeds (sub_add key act)); apply Forall_reversed.
  - constructor; [apply wf_sub_new|]. by constructor.
  - by constructor.
Qed.

Lemma scaling_remove_nonneg key id s :
  nonneg s -> nonneg (scaling_remove key id s).2.
Proof.
  unfold nonneg. simpl. intros Hs.
  apply Forall_reversed, remove_first_Forall; [|by apply Forall_reversed].
  intros sf Hsf. apply nonneg_foldl_alter; [apply drop1_nonneg|done].
Qed.
(** The sub-filters after an add, newest first. *)
Lemma scaling_add_shape key id s older act :
  sub_filters s = older ++ [act] -> sealed act = false ->
  (scaling_add key id s).1 = 0
  /\ rev (sub_filters (scaling_add key id s).2)
     = (if fill_exceeds (sub_add key act)
        then [new_sub_filter (target_capacity s) (target_error_rate s)
                (length (sub_filters s)); seal (sub_add key act)]
        else [sub_add key act]) ++ rev older.
Proof.
  intros Hsubs Hun.
  assert (rev (sub_filters s) = act :: rev older) as Hrev
    by (by rewrite Hsubs, rev_app_distr).
  unfold scaling_add. rewrite Hrev, Hun.
  destruct (fill_exceeds (sub_add key act));
    (split; [reflexivity|]); exact (rev_involutive _).
Qed.

Lemma elem_of_rev {A} (x : A) (l : list A) : x ∈ rev l -> x ∈ l.
Proof. rewrite !list_elem_of_In. apply in_rev. Qed.

(** Add then delete of a key whose positions were zero everywhere. *)
Lemma scaling_add_remove key id id' s :
  wf s -> untouched key s ->
  scaling_check key (scaling_remove key id' (scaling_add key id s).2).2 = false.
Proof.
  intros [Hall (older & act & Hsubs & Hun)] Hz.
  destruct (scaling_add_shape key id s older act Hsubs Hun) as [_ Hshape].
  assert (act ∈ sub_filters s) as Hactin.
  { rewrite Hsubs. apply elem_of_app. right. apply list_elem_of_here. }
  assert (wf_sub act) as Hact by (by eapply Forall_forall).
  assert (forall x, x ∈ older -> sub_check key x = false) as Hold.
  { intros x Hx. assert (x ∈ sub_filters s) as Hin
      by (rewrite Hsubs; apply elem_of_app; by left).
    apply sub_check_untouched.
    - by apply (proj1 (Forall_forall _ _) Hall x Hin).
    - intros p c Hp Hc. rewrite (Hz x Hin p Hp) in Hc. congruence. }
  assert (sub_check key (sub_remove key (sub_add key act)) = false) as Hgone.
  { destruct (positions_first key act) as [p Hp]; [apply Hact|].
    apply (sub_check_zero _ _ p); [exact Hp|].
    assert (counters act !! p = Some 0) as Hzero by (by apply Hz).
    intros c. rewrite (sub_add_remove_zero key act p Hp Hzero). congruence. }
  unfold scaling_remove, scaling_check. simpl. rewrite Hshape.
  apply existsb_false. intros x Hx%elem_of_rev.
  destruct (fill_exceeds (sub_add key act)); simpl in Hx.
  - rewrite sub_check_new in Hx.
    change (sub_check key (seal (sub_add key act)))
      with (sub_check key (sub_add key act)) in Hx.
    rewrite sub_check_add in Hx by done.
    apply elem_of_cons in Hx as [->|Hx]; [apply sub_check_new|].
    apply elem_of_cons in Hx as [->|Hx]; [exact Hgone|].
    by apply Hold, elem_of_rev.
  - rewrite sub_check_add in Hx by done.
    apply elem_of_cons in Hx as [->|Hx]; [exact Hgone|].
    by apply Hold, elem_of_rev.
Qed.

Lemma still_single_add tc n key id s s' :
  scaling_add key id s = (0, s') ->
  still_single tc n s -> still_single tc (n + 1) s'.
Proof.
  intros Hadd [Hlen|(sf & Hsubs & Hfill & Hadds & Hcap)].
  - left. unfold scaling_add in Hadd.
    destruct (rev (sub_filters s)) as [|act older] eqn:Hrev; [done|].
    destruct (sealed act); [done|]. injection Hadd as <-. simpl.
    rewrite <- length_rev, Hrev in Hlen. simpl in Hlen.
    rewrite length_rev. destruct (fill_exceeds (sub_add key act)); simpl; lia.
  - unfold scaling_add in Hadd. rewrite Hsubs in Hadd. simpl in Hadd.
    destruct (sealed sf); [done|].
    destruct (fill_exceeds (sub_add key sf)) eqn:Hfill';
      injection Hadd as <-; simpl; [by left|right].
    exists (sub_add key sf). repeat split; try done. simpl. by rewrite Hadds.
Qed.

Lemma still_single_add_all tc items : forall n s s' rs,
  wf s -> add_all items s = (rs, s') ->
  still_single tc n s -> still_single tc (n + N.of_nat (length items)) s'.
Proof.
  induction items as [|[key id] items IH]; intros n s s' rs Hwf; simpl.
  - intros [= _ <-]. by rewrite N.add_0_r.
  - destruct (scaling_add_wf key id s Hwf) as (s1 & Hadd & Hwf1 & _).
    rewrite Hadd. destruct (add_all items s1) as [rs1 s2] eqn:Hrest.
    intros [= _ <-] Hs.
    replace (n + N.of_nat (S (length items)))%N
      with (n + 1 + N.of_nat (length items))%N by lia.
    eapply IH; [exact Hwf1|exact Hrest|]. by eapply still_single_add.
Qed.

(** More adds than the capacity the filter was made with leave it with at
    least two sub-filters, when the threshold is at most one. *)
Lemma add_all_grows path capacity error_rate w s w' items :
  create path capacity error_rate w = inr (s, w') ->
  capacity < Z.of_nat (length items) ->
  (2 <= length (sub_filters (add_all items s).2))%nat.
Proof.
  intros Hcreate Hmany. unfold create in Hcreate.
  destruct (negb (valid_config capacity error_rate path)) eqn:Hvalid; [done|].
  destruct (negb (io_ok w)); [done|]. injection Hcreate as <- _.
  apply negb_false_iff in Hvalid. unfold valid_config in Hvalid.
  apply andb_true_iff in Hvalid as [[[Hcap%Z.leb_le _]%andb_true_iff _]%andb_true_iff _].
  set (s := {| target_capacity := Z.to_pos capacity |}).
  assert (wf s) as Hwf.
  { split; [constructor; [apply wf_sub_new|constructor]|].
    by exists [], (new_sub_filter (Z.to_pos capacity) error_rate 0). }
  assert (still_single (Z.to_pos capacity) 0 s) as Hs.
  { right. eexists. split_and!; try done.
    unfold fill_exceeds. simpl. apply N.ltb_ge. lia. }
  destruct (add_all items s) as [rs s'] eqn:Hrun. simpl.
  destruct (still_single_add_all _ items 0 s s' rs Hwf Hrun Hs)
    as [Hlen|(sf & _ & Hfill & Hadds & Hc)]; [done|].
  exfalso. unfold fill_exceeds in Hfill. apply N.ltb_ge in Hfill.
  rewrite Hadds, Hc in Hfill.
  unfold threshold_den in Hfill. nia.
Qed.
Lemma bump_iter_any n c :
  Nat.iter n bump c = Z.max c (Z.min (c + Z.of_nat n) counter_max).
Proof.
  induction n as [|n IH]; simpl; [lia|]. rewrite IH. unfold bump.
  destruct (Z.ltb_spec (Z.max c (Z.min (c + Z.of_nat n) counter_max)) counter_max);
    lia.
Qed.

Lemma create_inv path capacity error_rate w s w' :
  create path capacity error_rate w = inr (s, w') ->
  mem_seqnum s = 0%N /\ disk_seqnum s = 0%N /\ nonneg s.
Proof.
  unfold create. destruct (negb (valid_config _ _ _)); [done|].
  destruct (negb (io_ok w)); [done|]. intros [= <- _]. split_and!; try done.
  constructor; [apply wf_sub_new|constructor].
Qed.

Lemma rebuild_nonneg te ds data : forall i,
  Forall (fun sf => Forall (fun c => 0 <= c) (counters sf)) (rebuild te i ds data).
Proof.
  induction ds as [|d ds IH]; intros i; simpl; constructor; [|apply IH].
  simpl. apply Forall_fmap, Forall_true. intros n. simpl. lia.
Qed.

Lemma open_inv path w s w' :
  open path w = inr (s, w') ->
  mem_seqnum s = disk_seqnum s /\ (disk_seqnum s < 2 ^ 64)%N /\ nonneg s.
Proof.
  unfold open. destruct (disk w !! path) as [f|]; [|done].
  destruct (f_header f) as [h|]; [|done].
  destruct (negb (_ && _)); [done|]. destruct (negb (forallb _ _)); [done|].
  destruct (negb (io_ok w)); [done|]. intros [= <- _]. split_and!; [done| |].
  - simpl. by apply N.mod_upper_bound.
  - apply rebuild_nonneg.
Qed.

Lemma flush_inv s w r s' w' :
  flush s w = (r, s', w') ->
  sub_filters s' = sub_filters s
  /\ mem_seqnum s' = mem_seqnum s
  /\ (r = 0 -> disk_seqnum s' = mem_seqnum s)
  /\ (r <> 0 -> s' = s /\ w' = w).
Proof.
  unfold flush. destruct (io_ok w); intros [= <- <- <-]; split_and!; try done.
Qed.

Lemma reachable_nonneg s e k : reachable s e k -> nonneg s.
Proof.
  induction 1 as [? ? ? ? ? ? Hc|? ? ? ? Ho|? ? ? ? ? ? _ IH Ha|? ? ? ? ? ? _ IH Hr
                  |? ? ? ? ? ? _ IH Hf|? ? ? ? ? ? ? _ IH Hf _].
  - by apply create_inv in Hc as (_ & _ & ?).
  - by apply open_inv in Ho as (_ & _ & ?).
  - apply scaling_add_inv in Ha as (_ & _ & Hn). by apply Hn.
  - assert (s' = (scaling_remove key id s).2) as -> by (by rewrite Hr).
    by apply scaling_remove_nonneg.
  - apply flush_inv in Hf as (Hs & _). unfold nonneg. by rewrite Hs.
  - apply flush_inv in Hf as (Hs & _). unfold nonneg. by rewrite Hs.
Qed.

(** The invariants of a filter hold of a new one, and an add, a delete and
    a flush keep them. *)
Lemma wf_invariant :
  (forall path capacity error_rate w s w',
     create path capacity error_rate w = inr (s, w') -> wf s)
  /\ (forall key id s, wf s ->
        wf (scaling_add key id s).2 /\ wf (scaling_remove key id s).2)
  /\ (forall s w, wf s -> wf (flush s w).1.2).
Proof.
  split_and!.
  - intros path capacity error_rate w s w'. unfold create.
    destruct (negb (valid_config _ _ _)); [done|].
    destruct (negb (io_ok w)); [done|]. intros [= <- _]. split.
    + constructor; [apply wf_sub_new|constructor].
    + by eexists [], _.
  - intros key id s Hwf. split; [|by apply scaling_remove_wf].
    by destruct (scaling_add_wf key id s Hwf) as (s' & -> & ? & _).
  - intros s w Hwf. destruct (flush s w) as [[r s'] w'] eqn:Hf. simpl.
    apply flush_inv in Hf as (Hsubs & _). unfold wf. by rewrite Hsubs.
Qed.

(** The sequence numbers of a reachable filter: both are below 2^64, the
    memory one is the disk one plus the number of adds and deletes since
    the filter was made or last flushed, modulo 2^64, and that number is 0
    exactly when the last thing that happened was not a mutation. *)
Lemma seqnums_counted s e k :
  reachable s e k ->
  (disk_seqnum s < 2 ^ 64)%N
  /\ mem_seqnum s = ((disk_seqnum s + k) mod 2 ^ 64)%N
  /\ (k = 0%N <-> e <> Mutated).
Proof.
  induction 1 as [? ? ? ? ? ? Hc|? ? ? ? Ho|? ? ? ? ? ? _ IH Ha|? ? ? ? ? ? _ IH Hr
                  |? ? ? ? ? ? _ IH Hf|? ? ? ? ? ? ? _ IH Hf Hr].
  - apply create_inv in Hc as (-> & -> & _). done.
  - apply open_inv in Ho as (-> & Hlt & _). split_and!; [done| |done].
    rewrite N.add_0_r. symmetry. by apply N.mod_small.
  - apply scaling_add_inv in Ha as (-> & -> & _). destruct IH as (Hlt & -> & _).
    split_and!; [done| |split; [lia|done]].
    unfold next_seqnum. rewrite N.Div0.add_mod_idemp_l. f_equal. lia.
  - assert (s' = (scaling_remove key id s).2) as -> by (by rewrite Hr).
    destruct IH as (Hlt & Hmem & _). simpl.
    split_and!; [done| |split; [lia|done]].
    unfold next_seqnum. rewrite Hmem, N.Div0.add_mod_idemp_l. f_equal. lia.
  - destruct IH as (Hlt & Hmem & _).
    apply flush_inv in Hf as (_ & -> & -> & _); [|done].
    assert (mem_seqnum s < 2 ^ 64)%N as Hm
      by (rewrite Hmem; by apply N.mod_upper_bound).
    split_and!; [done| |done]. rewrite N.add_0_r. symmetry. by apply N.mod_small.
  - apply flush_inv in Hf as (_ & _ & _ & Hsame). by destruct (Hsame Hr) as [-> _].
Qed.

(** C9.  In every reachable state no counter is negative, and an add, a
    delete and a flush keep it so.  An add takes a counter [c] that its key
    hits [n] times to [min (c + n) counter_max], and leaves a counter
    already above that alone; a delete leaves a counter at 0 at 0. *)
Theorem counters_never_negative :
  (forall s e k, reachable s e k -> nonneg s)
  /\ (forall key id s w, nonneg s ->
        nonneg (scaling_add key id s).2
        /\ nonneg (scaling_remove key id s).2
        /\ nonneg (flush s w).1.2)
  /\ (forall key sf p c, counters sf !! p = Some c ->
        counters (sub_add key sf) !! p
        = Some (Z.max c (Z.min (c + Z.of_nat (hits p (positions key sf)))
                           counter_max)))
  /\ (forall key sf p, counters sf !! p = Some 0 ->
        counters (sub_remove key sf) !! p = Some 0).
Proof.
  split_and!.
  - apply reachable_nonneg.
  - intros key id s w Hs. split_and!.
    + destruct (scaling_add key id s) as [r s'] eqn:Hadd. simpl.
      unfold scaling_add in Hadd.
      destruct (rev (sub_filters s)) as [|act older] eqn:Hrev;
        [by injection Hadd as _ <-|].
      destruct (sealed act) eqn:Hsealed; [by injection Hadd as _ <-|].
      assert (r = 0) as -> by (by injection Hadd).
      assert (scaling_add key id s = (0, s')) as Hadd'
        by (unfold scaling_add; by rewrite Hrev, Hsealed).
      apply scaling_add_inv in Hadd' as (_ & _ & Hn). by apply Hn.
    + by apply scaling_remove_nonneg.
    + destruct (flush s w) as [[r s'] w'] eqn:Hf. simpl.
      apply flush_inv in Hf as (Hsubs & _). unfold nonneg. by rewrite Hsubs.
  - intros key sf p c Hc. by rewrite sub_add_lookup, Hc, <- bump_iter_any.
  - intros key sf p Hz. rewrite sub_remove_lookup, Hz. simpl.
    rewrite drop1_iter by lia. f_equal. lia.
Qed.
(** ** Reopening the file of a filter *)

Lemma decode_encode (cs : list Z) :
  Forall (fun c => 0 <= c) cs -> Z.of_N <$> (Z.to_N <$> cs) = cs.
Proof.
  induction 1 as [|c cs Hc _ IH]; [done|]. rewrite !fmap_cons, IH. f_equal. lia.
Qed.

Lemma rebuild_describe te subs : forall i (pre : list N),
  Forall (fun sf => Forall (fun c => 0 <= c) (counters sf)) subs ->
  Forall2 same_geometry subs
    (rebuild te i (describe (length pre) subs)
       (pre ++ concat ((fun sf => Z.to_N <$> counters sf) <$> subs))).
Proof.
  induction subs as [|sf subs IH]; intros i pre Hpos; simpl; [constructor|].
  inversion Hpos as [|? ? Hsf Hrest]; subst. constructor.
  - split_and!; try done. simpl.
    rewrite drop_app_length, <- (length_fmap Z.to_N (counters sf)), take_app_length.
    by apply decode_encode.
  - specialize (IH (S i) (pre ++ (Z.to_N <$> counters sf)) Hrest).
    rewrite length_app, length_fmap, <- app_assoc in IH. exact IH.
Qed.

Lemma fits_describe subs : forall (pre : list N),
  forallb (fits (pre ++ concat ((fun sf => Z.to_N <$> counters sf) <$> subs)))
    (describe (length pre) subs) = true.
Proof.
  induction subs as [|sf subs IH]; intros pre; simpl; [done|].
  apply andb_true_iff. split.
  - unfold fits. simpl. apply Nat.leb_le.
    rewrite !length_app, length_fmap. lia.
  - specialize (IH (pre ++ (Z.to_N <$> counters sf))).
    rewrite length_app, length_fmap, <- app_assoc in IH. exact IH.
Qed.

Lemma rebuild_last te ds data : forall i,
  ds <> [] ->
  exists older act, rebuild te i ds data = older ++ [act] /\ sealed act = false.
Proof.
  induction ds as [|d ds IH]; intros i Hne; [done|].
  destruct ds as [|d' ds].
  - simpl. by eexists [], _.
  - destruct (IH (S i)) as (older & act & Heq & Hun); [done|].
    cbn [rebuild] in *. rewrite Heq. by eexists (_ :: older), act.
Qed.

(** [open] on the file of a filter without a negative counter succeeds when
    the storage works, and gives back its geometry and its counters. *)
Lemma reopen_image s path w :
  nonneg s -> disk w !! path = Some (image s) -> io_ok w = true ->
  exists s',
    open path w = inr (s', w)
    /\ Forall2 same_geometry (sub_filters s) (sub_filters s')
    /\ target_capacity s' = target_capacity s
    /\ (sub_filters s <> [] ->
        exists older act, sub_filters s' = older ++ [act] /\ sealed act = false).
Proof.
  intros Hpos Hfile Hio. unfold open. rewrite Hfile. simpl.
  rewrite !N.eqb_refl. simpl.
  pose proof (fits_describe (sub_filters s) []) as Hfits. simpl in Hfits.
  rewrite Hfits, Hio. simpl. eexists. split; [done|]. simpl. split_and!.
  - apply (rebuild_describe _ (sub_filters s) 0%nat [] Hpos).
  - done.
  - intros Hne. apply rebuild_last. by destruct (sub_filters s).
Qed.

Lemma same_geometry_wf sf sf' : same_geometry sf sf' -> wf_sub sf -> wf_sub sf'.
Proof.
  intros (Hcap & Hk & Hcs & _) (Hlen & Hpos & Hnn). unfold wf_sub.
  by rewrite Hcap, Hk, Hcs.
Qed.

Lemma remove_first_length key l : length (remove_first key l) = length l.
Proof.
  induction l as [|sf l IH]; simpl; [done|].
  destruct (sub_check key sf); simpl; by rewrite ?IH.
Qed.

Lemma still_single_remove tc n key id s :
  still_single tc n s -> still_single tc n (scaling_remove key id s).2.
Proof.
  intros [Hlen|(sf & Hsubs & Hfill & Hadds & Hcap)]; simpl.
  - left. simpl. by rewrite length_rev, remove_first_length, length_rev.
  - right. simpl. rewrite Hsubs. simpl.
    destruct (sub_check key sf); simpl; eexists; split_and!; done.
Qed.

(** A filter the engine produced keeps the invariants of the data model,
    its sequence of sub-filters is what its adds made it, and none of its
    counters is negative. *)
Lemma built_inv s :
  built s ->
  wf s /\ (exists n, still_single (target_capacity s) n s).
Proof.
  induction 1 as [path capacity error_rate w s w' Hc|key id s _ [Hwf [n Hn]]
                  |key id s _ [Hwf [n Hn]]|s w _ [Hwf [n Hn]]
                  |s path w s' w' _ [Hwf [n Hn]] Hfile Hopen].
  - split; [by eapply (proj1 wf_invariant)|]. exists 0%N.
    unfold create in Hc. destruct (negb (valid_config _ _ _)); [done|].
    destruct (negb (io_ok w)); [done|]. injection Hc as <- _. right.
    eexists. split_and!; try done. unfold fill_exceeds. simpl.
    apply N.ltb_ge. lia.
  - destruct (scaling_add_wf key id s Hwf) as (s' & Hadd & Hwf' & _ & _ & _ & _ & Htc & _).
    rewrite Hadd. simpl. split; [done|]. exists (n + 1)%N. rewrite Htc.
    by eapply still_single_add.
  - split; [by apply scaling_remove_wf|]. exists n.
    by apply still_single_remove.
  - split; [by apply (proj2 (proj2 wf_invariant))|]. exists n.
    destruct (flush s w) as [[r s'] w'] eqn:Hf. simpl.
    unfold flush in Hf. destruct (io_ok w); injection Hf as <- <- <-; done.
  - assert (nonneg s) as Hpos.
    { destruct Hwf as [Hall _]. unfold nonneg.
      eapply Forall_impl; [exact Hall|]. by intros sf (_ & _ & ?). }
    assert (io_ok w = true) as Hio.
    { unfold open in Hopen. rewrite Hfile in Hopen. simpl in Hopen.
      destruct (negb (_ && _)); [done|]. destruct (negb (forallb _ _)); [done|].
      by destruct (io_ok w). }
    destruct (reopen_image s path w Hpos Hfile Hio) as (s1 & Hopen1 & Hgeo & Htc & Hlast).
    rewrite Hopen1 in Hopen. injection Hopen as <- <-.
    destruct Hwf as [Hall (older & act & Hsubs & Hun)]. split.
    + split.
      * clear -Hall Hgeo. induction Hgeo as [|sf sf' l l' Hsame _ IH]; [constructor|].
        inversion Hall; subst. constructor; [by eapply same_geometry_wf|by apply IH].
      * apply Hlast. rewrite Hsubs. by destruct older.
    + exists 0%N. rewrite Htc.
      destruct Hn as [Hlen|(sf & Hsf & _ & _ & Hcap)].
      * left. by rewrite <- (Forall2_length _ _ _ Hgeo).
      * right. rewrite Hsf in Hgeo.
        inversion Hgeo as [|? sf' ? l' (Hcap' & _ & _ & Hadds') Hnil]; subst.
        inversion Hnil; subst. exists sf'. split_and!; try done; [|congruence].
        unfold fill_exceeds. rewrite Hadds'. apply N.ltb_ge. lia.
Qed.
Lemma add_all_cons key id items s :
  (add_all ((key, id) :: items) s).2 = (add_all items (scaling_add key id s).2).2.
Proof.
  simpl. destruct (scaling_add key id s) as [r s1]. simpl.
  by destruct (add_all items s1).
Qed.

Lemma built_add_all items : forall s, built s -> built (add_all items s).2.
Proof.
  induction items as [|[key id] items IH]; intros s Hs; [done|].
  rewrite add_all_cons. by apply IH, built_add.
Qed.


Lemma reachable_add_all items : forall s e k,
  reachable s e k -> wf s -> items <> [] ->
  reachable (add_all items s).2 Mutated (k + N.of_nat (length items)).
Proof.
  induction items as [|[key id] items IH]; intros s e k Hs Hwf Hne; [done|].
  rewrite add_all_cons.
  destruct (scaling_add_wf key id s Hwf) as (s1 & Hadd & Hwf1 & _).
  rewrite Hadd. simpl.
  pose proof (reach_add key id s e k s1 Hs Hadd) as Hs1.
  destruct items as [|item items].
  - simpl. replace (k + 1)%N with (k + N.of_nat 1)%N in Hs1 by lia. exact Hs1.
  - pose proof (IH s1 Mutated (k + 1)%N Hs1 Hwf1 ltac:(done)) as Hrest.
    assert ((k + 1 + N.of_nat (length (item :: items)))%N
            = (k + N.of_nat (S (length (item :: items))))%N) as <- by lia.
    exact Hrest.
Qed.
End Facts.
End dablooms_facts.

(** ** The binding on any engine *)

Module binding_facts.
Section Any.
Context {E : Engine}.

Local Abbreviation Dablooms_init := (@pydablooms.Dablooms_init E).
Local Abbreviation load_dabloom := (@pydablooms.load_dabloom E).
Local Abbreviation Done := (@pydablooms.Done E).
Local Abbreviation PyLong := (@pydablooms.PyLong E).
Local Abbreviation DabloomsError := pydablooms.DabloomsError.
Local Abbreviation Null := (@pydablooms.Null E).
Local Abbreviation obj p := (@pydablooms.Build_Dablooms E p).
Local Abbreviation rejected := pydablooms.rejected.
Local Abbreviation accepted := pydablooms.accepted.
Local Abbreviation complaint := pydablooms.complaint.
Local Abbreviation raised st msg :=
  (@pydablooms.Build_pystate E (Some (DabloomsError msg)) (pydablooms.env st)).

Lemma rejected_or_accepted capacity error_rate filepath :
  rejected capacity error_rate filepath \/ accepted capacity error_rate filepath.
Proof.
  unfold pydablooms.rejected, pydablooms.accepted.
  destruct (Z.ltb_spec capacity 1); [left; by left|].
  destruct (d_gt error_rate d_one); [left; right; by left|].
  destruct (d_lt error_rate d_zero); [left; right; right; by left|].
  destruct (pydablooms.has_path filepath); [by right|].
  left. right. right. by right.
Qed.

Lemma init_rejected self capacity error_rate filepath st :
  rejected capacity error_rate filepath ->
  Dablooms_init self (Some (capacity, error_rate, filepath)) st
  = Done (-1, self) (raised st (complaint capacity error_rate)).
Proof.
  intros Hrej. unfold pydablooms.Dablooms_init, pydablooms.bind, pydablooms.complaint. simpl.
  destruct (Z.ltb_spec capacity 1); [done|].
  destruct (d_gt error_rate d_one || d_lt error_rate d_zero) eqn:Hrate; [done|].
  apply orb_false_iff in Hrate as [Hgt Hlt].
  destruct Hrej as [?|[?|[?|Hpath]]]; [lia|congruence|congruence|].
  by rewrite Hpath.
Qed.

Lemma init_accepted self capacity error_rate filepath st :
  accepted capacity error_rate filepath ->
  Dablooms_init self (Some (capacity, error_rate, filepath)) st
  = let r := new_scaling_bloom capacity error_rate
               (pydablooms.path_of filepath) (pydablooms.env st) in
    Done (0, obj (pydablooms.of_option r.1))
      (pydablooms.Build_pystate (pydablooms.err st) r.2).
Proof.
  intros (Hcap & Hgt & Hlt & Hpath).
  unfold pydablooms.Dablooms_init, pydablooms.bind. simpl.
  destruct (Z.ltb_spec capacity 1); [lia|]. rewrite Hgt, Hlt, Hpath. simpl.
  unfold pydablooms.in_world. by destruct (new_scaling_bloom _ _ _ _).
Qed.

Lemma load_rejected_null capacity error_rate filepath st :
  rejected capacity error_rate filepath ->
  load_dabloom Null (Some (capacity, error_rate, filepath)) st
  = Done None (raised st (complaint capacity error_rate)).
Proof.
  intros Hrej. unfold pydablooms.load_dabloom, pydablooms.bind, pydablooms.complaint. simpl.
  destruct (Z.ltb_spec capacity 1); [done|].
  destruct (d_gt error_rate d_one || d_lt error_rate d_zero) eqn:Hrate; [done|].
  apply orb_false_iff in Hrate as [Hgt Hlt].
  destruct Hrej as [?|[?|[?|Hpath]]]; [lia|congruence|congruence|].
  by rewrite Hpath.
Qed.

Lemma load_rejected_wild capacity error_rate filepath st :
  rejected capacity error_rate filepath ->
  load_dabloom pydablooms.Wild (Some (capacity, error_rate, filepath)) st
  = pydablooms.Fault.
Proof.
  intros Hrej. unfold pydablooms.load_dabloom, pydablooms.bind. simpl.
  destruct (Z.ltb_spec capacity 1); [done|].
  destruct (d_gt error_rate d_one || d_lt error_rate d_zero) eqn:Hrate; [done|].
  apply orb_false_iff in Hrate as [Hgt Hlt].
  destruct Hrej as [?|[?|[?|Hpath]]]; [lia|congruence|congruence|].
  by rewrite Hpath.
Qed.

Lemma load_accepted junk capacity error_rate filepath st :
  accepted capacity error_rate filepath ->
  load_dabloom junk (Some (capacity, error_rate, filepath)) st
  = let r := new_scaling_bloom_from_file capacity error_rate
               (pydablooms.path_of filepath) (pydablooms.env st) in
    Done (Some (pydablooms.PyDablooms (obj (pydablooms.of_option r.1))))
      (pydablooms.Build_pystate (pydablooms.err st) r.2).
Proof.
  intros (Hcap & Hgt & Hlt & Hpath).
  unfold pydablooms.load_dabloom, pydablooms.bind. simpl.
  destruct (Z.ltb_spec capacity 1); [lia|]. rewrite Hgt, Hlt, Hpath. simpl.
  unfold pydablooms.in_world. by destruct (new_scaling_bloom_from_file _ _ _ _).
Qed.
(** For an [error_rate] that is a number, [Dablooms_init] does what C6
    says: outside the rules it raises [DabloomsError] and the engine is not
    called; inside them it calls [new_scaling_bloom] once and returns 0. *)
Lemma init_validates_numbers self capacity error_rate filepath st :
  is_nan error_rate = false ->
  (capacity < 1 \/ d_le d_zero error_rate && d_le error_rate d_one = false
   \/ pydablooms.has_path filepath = false ->
   Dablooms_init self (Some (capacity, error_rate, filepath)) st
   = Done (-1, self) (raised st (complaint capacity error_rate)))
  /\ (1 <= capacity -> d_le d_zero error_rate && d_le error_rate d_one = true ->
      pydablooms.has_path filepath = true ->
      Dablooms_init self (Some (capacity, error_rate, filepath)) st
      = let r := new_scaling_bloom capacity error_rate
                   (pydablooms.path_of filepath) (pydablooms.env st) in
        Done (0, obj (pydablooms.of_option r.1))
          (pydablooms.Build_pystate (pydablooms.err st) r.2)).
Proof.
  intros Hnan. pose proof (rate_test_complete error_rate Hnan) as Htest.
  split.
  - intros Hbad. apply init_rejected. unfold pydablooms.rejected.
    destruct Hbad as [?|[Hrate|?]]; [by left| |by repeat right].
    rewrite Hrate in Htest. simpl in Htest.
    apply orb_true_iff in Htest as [?|?]; [right; by left|right; right; by left].
  - intros Hcap Hrate Hpath. apply init_accepted.
    rewrite Hrate in Htest. simpl in Htest.
    apply orb_false_iff in Htest as [? ?]. by split_and!.
Qed.

(** When the field [PyObject_New] left unset happens to be null,
    [load_dabloom] does what C10 says: with parameters the tests turn down
    it raises what [Dablooms_init] raises and the engine is not called. *)
Lemma load_like_init_when_null self capacity error_rate filepath st :
  rejected capacity error_rate filepath ->
  Dablooms_init self (Some (capacity, error_rate, filepath)) st
  = Done (-1, self) (raised st (complaint capacity error_rate))
  /\ load_dabloom Null (Some (capacity, error_rate, filepath)) st
     = Done None (raised st (complaint capacity error_rate)).
Proof.
  intros Hrej. split; [by apply init_rejected|by apply load_rejected_null].
Qed.

(** C8.  With an engine whose check never answers a negative number, for
    every key [check(key)] and [key in filter] run alike from the same
    state: both fault on a filter that is not a live object, and otherwise
    they leave the same state, [check] returns the integer [contains]
    returned and its truth value is the value of [key in filter]. *)
Theorem check_agrees_with_contains (self : pydablooms.Dablooms) (key : bytes) st :
  (forall b k, 0 <= scaling_bloom_check b k) ->
  match pydablooms.contains self (Some key) st,
        pydablooms.check self (Some key) st with
  | pydablooms.Done c st1, pydablooms.Done res st2 =>
    st1 = st2 /\ res = Some (PyLong c)
    /\ pydablooms.in_operator c = Some (pydablooms.truth (PyLong c))
  | pydablooms.Fault, pydablooms.Fault => True
  | _, _ => False
  end.
Proof.
  intros Hsign. destruct self as [[|b|]]; try done. destruct st as [e w].
  unfold pydablooms.contains, pydablooms.check, pydablooms.bind. simpl.
  split_and!; try done. unfold pydablooms.in_operator.
  destruct (Z.ltb_spec (scaling_bloom_check b key) 0); [|done].
  specialize (Hsign b key). lia.
Qed.

(** A key the parser turns down raises in both: [contains] returns -1 and
    [check] returns [NULL], with the parser's exception set. *)
Lemma unparsed_key_raises_in_both (self : pydablooms.Dablooms) st :
  pydablooms.contains self None st
  = Done (-1) (pydablooms.Build_pystate (Some pydablooms.ArgumentError)
                 (pydablooms.env st))
  /\ pydablooms.check self None st
     = Done None (pydablooms.Build_pystate (Some pydablooms.ArgumentError)
                    (pydablooms.env st)).
Proof. done. Qed.

(** C6.  An [error_rate] that is a NaN is neither at least 0 nor at most 1,
    yet [Dablooms_init] raises nothing for it: it calls [new_scaling_bloom]
    with it and returns 0. *)
Theorem nan_error_rate_accepted (self : pydablooms.Dablooms) st :
  d_le d_zero S754_nan = false /\ d_le S754_nan d_one = false
  /\ Dablooms_init self (Some (10, S754_nan, Some "f"%string)) st
     = let r := new_scaling_bloom 10 S754_nan "f" (pydablooms.env st) in
       Done (0, obj (pydablooms.of_option r.1))
         (pydablooms.Build_pystate (pydablooms.err st) r.2).
Proof.
  split_and!; try done. by apply init_accepted.
Qed.

(** C10.  With parameters the tests turn down, [load_dabloom] hands the
    [filter] field of the object it has just allocated, which it never
    set, to [Dablooms_dealloc]: when the field holds a bit pattern that is
    no live object the call faults, and when it holds the address of a live
    filter that filter is freed. *)
Theorem load_releases_unset_filter (b : scaling_bloom_t) st :
  load_dabloom pydablooms.Wild (Some (0, d_one, Some "f"%string)) st
  = pydablooms.Fault
  /\ load_dabloom (pydablooms.Ref b) (Some (0, d_one, Some "f"%string)) st
     = Done None
         (pydablooms.Build_pystate
            (Some (DabloomsError
                     "Bloom creation failed: capacity must be greater than zero"))
            (free_scaling_bloom b (pydablooms.env st))).
Proof. done. Qed.
End Any.
End binding_facts.

(** ** The binding on the engine of the specification *)

Module binding_on_engine.
Import dablooms dablooms_facts.
Section Run.
Context {T : Tuning}.

Local Abbreviation obj b := (pydablooms.Build_Dablooms (pydablooms.Ref b)).
Local Abbreviation PyLong := pydablooms.PyLong.
Local Abbreviation Done := pydablooms.Done.

Lemma add_run (b : ScalingFilter) key id st :
  pydablooms.add (obj b) (Some (key, id)) st
  = Done (Some (PyLong (scaling_add key id b).1), obj (scaling_add key id b).2) st.
Proof.
  destruct st as [e w]. unfold pydablooms.add, pydablooms.bind. simpl.
  unfold pydablooms.in_world. simpl. by destruct (scaling_add key id b).
Qed.

Lemma delete_run (b : ScalingFilter) key id st :
  pydablooms.delete (obj b) (Some (key, id)) st
  = Done (Some (PyLong 0), obj (scaling_remove key id b).2) st.
Proof. by destruct st as [e w]. Qed.

Lemma check_run (b : ScalingFilter) key st :
  pydablooms.check (obj b) (Some key) st
  = Done (Some (PyLong (if scaling_check key b then 1 else 0))) st.
Proof. by destruct st as [e w]. Qed.



Lemma seqnum_run (b : ScalingFilter) st :
  pydablooms.disk_seqnum (obj b) st
  = Done (Some (PyLong (Z.of_N (disk_seqnum b)))) st
  /\ pydablooms.mem_seqnum (obj b) st
     = Done (Some (PyLong (Z.of_N (mem_seqnum b)))) st.
Proof. by destruct st as [e w]. Qed.

(** C3, amended.  On every reachable filter [disk_seqnum()] and
    [mem_seqnum()] return 64-bit numbers, and the second is the first plus
    the number of adds and deletes that succeeded since the filter was
    constructed, loaded or last flushed with success, modulo 2^64.  As long
    as that sum has not passed 2^64 - 1, [disk_seqnum()] is at most
    [mem_seqnum()] and the two are equal exactly when nothing was added or
    deleted since. *)
Theorem seqnum_invariant (s : ScalingFilter) (e : Since) (k : N) st :
  reachable s e k ->
  exists d m,
    pydablooms.disk_seqnum (obj s) st = Done (Some (PyLong d)) st
    /\ pydablooms.mem_seqnum (obj s) st = Done (Some (PyLong m)) st
    /\ 0 <= d < 2 ^ 64 /\ 0 <= m < 2 ^ 64
    /\ m = (d + Z.of_N k) mod 2 ^ 64
    /\ (d + Z.of_N k < 2 ^ 64 ->
        d <= m /\ (d = m <-> k = 0%N) /\ (k = 0%N <-> e <> Mutated)).
Proof.
  intros Hs. destruct (seqnums_counted s e k Hs) as (Hlt & Hmem & Hk).
  destruct (seqnum_run s st) as [Hd Hm].
  exists (Z.of_N (disk_seqnum s)), (Z.of_N (mem_seqnum s)).
  assert (Z.of_N (mem_seqnum s)
          = (Z.of_N (disk_seqnum s) + Z.of_N k) mod 2 ^ 64) as Hmz.
  { rewrite Hmem, N2Z.inj_mod, N2Z.inj_add. done. }
  assert (0 <= Z.of_N (mem_seqnum s) < 2 ^ 64) as Hmr.
  { rewrite Hmz. apply Z.mod_pos_bound. lia. }
  split_and!; [done|done|lia|lia|lia|lia|exact Hmz|].
  intros Hsmall. rewrite Z.mod_small in Hmz by lia. split_and!; [lia|lia|exact Hk].
Qed.

(** C2, amended.  A filter the engine produced satisfies the invariants of
    the data model; and on every filter that satisfies them and in which
    every counter at a position of the key is 0, [add(key, id)] followed by
    [delete(key, id)] leaves a filter on which [check(key)] returns 0. *)
Theorem add_delete_check (b : ScalingFilter) (key : bytes) (id : Z) st :
  (built b -> wf b)
  /\ (wf b -> untouched key b ->
      exists b1 b2,
        pydablooms.add (obj b) (Some (key, id)) st
        = Done (Some (PyLong 0), obj b1) st
        /\ pydablooms.delete (obj b1) (Some (key, id)) st
           = Done (Some (PyLong 0), obj b2) st
        /\ pydablooms.check (obj b2) (Some key) st = Done (Some (PyLong 0)) st).
Proof.
  split; [intros Hb; by apply built_inv|].
  intros Hwf Hz. exists (scaling_add key id b).2.
  exists (scaling_remove key id (scaling_add key id b).2).2.
  destruct (scaling_add_wf key id b Hwf) as (b1 & Hadd & _).
  rewrite add_run, delete_run, check_run.
  rewrite (scaling_add_remove key id id b Hwf Hz). by rewrite Hadd.
Qed.


Lemma open_unusable path (w : World) : unusable path w -> exists err, open path w = inl err.
Proof.
  unfold unusable, open. destruct (disk w !! path) as [f|]; [|by eexists].
  destruct (f_header f) as [h|]; [|by eexists].
  intros [Hm|[Hv|Hfit]].
  - apply N.eqb_neq in Hm. rewrite Hm. by eexists.
  - apply N.eqb_neq in Hv. rewrite Hv, andb_false_r. by eexists.
  - rewrite Hfit. destruct (negb (_ && _)); by eexists.
Qed.

(** C4, amended.  For every call to [load_dabloom] with parameters the
    tests let through and a backing file that is absent, truncated or fails
    the header validation, the call raises nothing and returns a filter
    object; the [filter] field of that object is null. *)
Theorem load_of_unusable_file junk capacity error_rate filepath st :
  pydablooms.accepted capacity error_rate filepath ->
  unusable (pydablooms.path_of filepath) (pydablooms.env st) ->
  pydablooms.load_dabloom junk (Some (capacity, error_rate, filepath)) st
  = Done (Some (pydablooms.PyDablooms
                  (pydablooms.Build_Dablooms pydablooms.Null))) st.
Proof.
  intros Hacc Hbad. rewrite (binding_facts.load_accepted _ _ _ _ _ Hacc).
  destruct st as [e w]. simpl in *.
  destruct (open_unusable _ _ Hbad) as [err Herr]. by rewrite Herr.
Qed.

(** C5, amended.  When the storage fails, neither [Dablooms_init] nor
    [flush] raises anything: with parameters the tests let through,
    [Dablooms_init] returns 0 and leaves the object with a null [filter];
    [flush] returns the integer -1 and the filter is as before.  The state
    outside the object is unchanged in both. *)
Theorem io_failure_not_raised self (b : ScalingFilter) capacity error_rate filepath st :
  io_ok (pydablooms.env st) = false ->
  (pydablooms.accepted capacity error_rate filepath ->
   pydablooms.Dablooms_init self (Some (capacity, error_rate, filepath)) st
   = Done (0, pydablooms.Build_Dablooms pydablooms.Null) st)
  /\ pydablooms.flush (obj b) st = Done (Some (PyLong (-1)), obj b) st.
Proof.
  intros Hio. destruct st as [e w]. simpl in Hio. split.
  - intros Hacc. rewrite (binding_facts.init_accepted _ _ _ _ _ Hacc). simpl.
    unfold create. rewrite Hio. simpl.
    by destruct (negb (valid_config _ _ _)).
  - unfold pydablooms.flush, pydablooms.bind, pydablooms.in_world. simpl.
    unfold flush. by rewrite Hio.
Qed.
End Run.

Lemma small_filter_wf : wf small_filter.
Proof.
  split.
  - constructor; [apply (@wf_sub_new reference_tuning)|constructor].
  - by exists [], (@new_sub_filter reference_tuning 3 d_half 0).
Qed.

(** The reference tuning, a clean interpreter state and the objects that
    hold a filter, for the concrete runs. *)
#[local] Existing Instance reference_tuning.
Local Abbreviation obj b :=
  (@pydablooms.Build_Dablooms engine (@pydablooms.Ref engine b)).
Local Abbreviation clean w := (@pydablooms.Build_pystate engine None w).
Local Abbreviation PyLong := (@pydablooms.PyLong engine).

Lemma small_filter_created :
  create "f" 3 d_half empty_disk
  = inr (small_filter, store "f" small_filter empty_disk).
Proof. reflexivity. Qed.

Lemma small_filter_built : built small_filter.
Proof. exact (built_create _ _ _ _ _ _ small_filter_created). Qed.

Lemma small_filter_reachable : reachable small_filter Made 0.
Proof. exact (reach_create _ _ _ _ _ _ small_filter_created). Qed.



Lemma hundred_filter_created :
  create "f" 100 d_half empty_disk
  = inr (hundred_filter, store "f" hundred_filter empty_disk).
Proof. reflexivity. Qed.

Lemma saturated_filter_built : built saturated_filter.
Proof.
  apply built_add_all. exact (built_create _ _ _ _ _ _ hundred_filter_created).
Qed.

Lemma used_filter_reachable : reachable used_filter Mutated 1.
Proof.
  apply (reach_add key_foo 3 flushed_filter Flushed 0 used_filter); [|reflexivity].
  apply (reach_flush_ok (add_all [(key_foo, 1); (key_bar, 2)] small_filter).2
           Mutated 2 (store "f" small_filter empty_disk) flushed_filter
           (flush (add_all [(key_foo, 1); (key_bar, 2)] small_filter).2
              (store "f" small_filter empty_disk)).2); [|reflexivity].
  apply (reachable_add_all [(key_foo, 1); (key_bar, 2)] small_filter Made 0
           small_filter_reachable small_filter_wf). done.
Qed.

Lemma saturated_filter_reachable : reachable saturated_filter Mutated 16.
Proof.
  apply (reachable_add_all (replicate 16 (key_foo, 1)) hundred_filter Made 0).
  - exact (reach_create _ _ _ _ _ _ hundred_filter_created).
  - apply built_inv. exact (built_create _ _ _ _ _ _ hundred_filter_created).
  - done.
Qed.



Lemma saturated_filter_untouched : untouched key_bar saturated_filter.
Proof.
  intros sf Hsf p Hp.
  assert (sub_filters saturated_filter = [saturated_sub]) as Hsubs
    by (vm_compute; reflexivity).
  rewrite Hsubs in Hsf. apply list_elem_of_singleton in Hsf as ->.
  assert (positions key_bar saturated_sub = [36; 26; 16]%nat) as Hpos
    by (vm_compute; reflexivity).
  rewrite Hpos in Hp.
  repeat (apply elem_of_cons in Hp as [->|Hp]; [vm_compute; reflexivity|]).
  inversion Hp.
Qed.

(** C2 as stated fails twice.  On a filter read from a file whose
    descriptor names no hashes, [check] returns 1 after the add and the
    delete.  And on a filter that holds the key already, and no other key,
    one add and one delete leave [check] at 1. *)
Lemma key_still_present_after_delete :
  (reachable (opened no_hash_disk) Made 0
   /\ untouched key_foo (opened no_hash_disk)
   /\ pydablooms.check
        (obj (scaling_remove key_foo 1
                (scaling_add key_foo 1 (opened no_hash_disk)).2).2)
        (Some key_foo) (clean no_hash_disk)
      = pydablooms.Done (Some (PyLong 1)) (clean no_hash_disk))
  /\ (built foo_filter
      /\ pydablooms.add (obj foo_filter) (Some (key_foo, 2)) (clean empty_disk)
         = pydablooms.Done
             (Some (PyLong 0), obj (scaling_add key_foo 2 foo_filter).2)
             (clean empty_disk)
      /\ pydablooms.delete (obj (scaling_add key_foo 2 foo_filter).2)
           (Some (key_foo, 2)) (clean empty_disk)
         = pydablooms.Done
             (Some (PyLong 0),
              obj (scaling_remove key_foo 2 (scaling_add key_foo 2 foo_filter).2).2)
             (clean empty_disk)
      /\ pydablooms.check
           (obj (scaling_remove key_foo 2 (scaling_add key_foo 2 foo_filter).2).2)
           (Some key_foo) (clean empty_disk)
         = pydablooms.Done (Some (PyLong 1)) (clean empty_disk)).
Proof.
  split; split_and!; try reflexivity.
  - apply (reach_open "f" no_hash_disk _ no_hash_disk). reflexivity.
  - intros sf Hsf p Hp.
    assert (sub_filters (opened no_hash_disk)
            = [{| capacity := 3; num_hashes := 0; counters := [0; 0; 0];
                  error_rate := d_half; sealed := false; adds := 0 |}]) as Hsubs
      by reflexivity.
    rewrite Hsubs in Hsf. apply list_elem_of_singleton in Hsf as ->.
    by apply elem_of_nil in Hp.
  - apply built_add, small_filter_built.
Qed.

Lemma add_delete_check_witness :
  built saturated_filter /\ wf saturated_filter
  /\ untouched key_bar saturated_filter
  /\ exists b1 b2 : ScalingFilter,
      pydablooms.add (obj saturated_filter) (Some (key_bar, 17)) (clean empty_disk)
      = pydablooms.Done (Some (PyLong 0), obj b1) (clean empty_disk)
      /\ pydablooms.delete (obj b1) (Some (key_bar, 17)) (clean empty_disk)
         = pydablooms.Done (Some (PyLong 0), obj b2) (clean empty_disk)
      /\ pydablooms.check (obj b2) (Some key_bar) (clean empty_disk)
         = pydablooms.Done (Some (PyLong 0)) (clean empty_disk).
Proof.
  destruct (add_delete_check saturated_filter key_bar 17 (clean empty_disk))
    as [Hwf Hrun].
  split; [exact saturated_filter_built|].
  split; [exact (Hwf saturated_filter_built)|].
  split; [exact saturated_filter_untouched|].
  exact (Hrun (Hwf saturated_filter_built) saturated_filter_untouched).
Defined.



(** C3 as stated fails twice.  On a new filter [disk_seqnum()] and
    [mem_seqnum()] both return 0 and no flush has taken place.  And on a
    filter loaded from a file last flushed at 2^64 - 1, one add takes
    [mem_seqnum()] to 0, below [disk_seqnum()]. *)
Lemma seqnum_claim_fails :
  (reachable small_filter Made 0
   /\ pydablooms.disk_seqnum (obj small_filter) (clean empty_disk)
      = pydablooms.Done (Some (PyLong 0)) (clean empty_disk)
   /\ pydablooms.mem_seqnum (obj small_filter) (clean empty_disk)
      = pydablooms.Done (Some (PyLong 0)) (clean empty_disk))
  /\ (reachable wrapped_filter Mutated 1
      /\ pydablooms.disk_seqnum (obj wrapped_filter) (clean last_seqnum_disk)
         = pydablooms.Done (Some (PyLong (2 ^ 64 - 1))) (clean last_seqnum_disk)
      /\ pydablooms.mem_seqnum (obj wrapped_filter) (clean last_seqnum_disk)
         = pydablooms.Done (Some (PyLong 0)) (clean last_seqnum_disk))
  /\ ~ (forall (s : ScalingFilter) e k st d m,
          reachable s e k ->
          pydablooms.disk_seqnum (obj s) st = pydablooms.Done (Some (PyLong d)) st ->
          pydablooms.mem_seqnum (obj s) st = pydablooms.Done (Some (PyLong m)) st ->
          d <= m /\ (d = m <-> e = Flushed)).
Proof.
  assert (reachable wrapped_filter Mutated 1) as Hwrapped.
  { apply (reach_add key_foo 1 (opened last_seqnum_disk) Made 0 wrapped_filter);
      [|reflexivity].
    apply (reach_open "f" last_seqnum_disk _ last_seqnum_disk). reflexivity. }
  split_and!; try reflexivity; try done.
  - exact small_filter_reachable.
  - intros Hclaim.
    destruct (Hclaim wrapped_filter Mutated 1%N (clean last_seqnum_disk)
                (2 ^ 64 - 1) 0 Hwrapped eq_refl eq_refl) as [Hle _].
    lia.
Qed.

Lemma seqnum_invariant_witness :
  reachable used_filter Mutated 1
  /\ pydablooms.disk_seqnum (obj used_filter) (clean empty_disk)
     = pydablooms.Done (Some (PyLong 2)) (clean empty_disk)
  /\ pydablooms.mem_seqnum (obj used_filter) (clean empty_disk)
     = pydablooms.Done (Some (PyLong 3)) (clean empty_disk)
  /\ exists d m,
      pydablooms.disk_seqnum (obj used_filter) (clean empty_disk)
      = pydablooms.Done (Some (PyLong d)) (clean empty_disk)
      /\ pydablooms.mem_seqnum (obj used_filter) (clean empty_disk)
         = pydablooms.Done (Some (PyLong m)) (clean empty_disk)
      /\ 0 <= d < 2 ^ 64 /\ 0 <= m < 2 ^ 64
      /\ m = (d + Z.of_N 1) mod 2 ^ 64
      /\ (d + Z.of_N 1 < 2 ^ 64 ->
          d <= m /\ (d = m <-> 1%N = 0%N) /\ (1%N = 0%N <-> Mutated <> Mutated)).
Proof.
  split; [exact used_filter_reachable|]. split; [reflexivity|].
  split; [reflexivity|].
  apply (seqnum_invariant used_filter Mutated 1 (clean empty_disk)
           used_filter_reachable).
Defined.

Lemma saturated_sub_nonneg : nonneg saturated_filter.
Proof. exact (reachable_nonneg _ _ _ saturated_filter_reachable). Qed.

Lemma counters_never_negative_witness :
  (reachable saturated_filter Mutated 16 /\ nonneg saturated_filter)
  /\ (nonneg (scaling_add key_foo 17 saturated_filter).2
      /\ nonneg (scaling_remove key_foo 17 saturated_filter).2
      /\ nonneg (flush saturated_filter empty_disk).1.2)
  /\ (counters saturated_sub !! 11%nat = Some 15
      /\ hits 11 (positions key_foo saturated_sub) = 1%nat
      /\ @counter_max reference_tuning = 15
      /\ counters (sub_add key_foo saturated_sub) !! 11%nat
         = Some 15)
  /\ (counters saturated_sub !! 36%nat = Some 0
      /\ 36%nat ∈ positions key_bar saturated_sub
      /\ counters (sub_remove key_bar saturated_sub) !! 36%nat = Some 0).
Proof.
  destruct (@counters_never_negative reference_tuning)
    as (Hreach & Hkeep & Hadd & Hdel).
  assert (counters saturated_sub !! 11%nat = Some 15) as Hfull
    by (vm_compute; reflexivity).
  assert (counters saturated_sub !! 36%nat = Some 0) as Hnone
    by (vm_compute; reflexivity).
  split_and!.
  - exact saturated_filter_reachable.
  - exact (Hreach saturated_filter Mutated 16%N saturated_filter_reachable).
  - exact (proj1 (Hkeep key_foo 17 saturated_filter empty_disk saturated_sub_nonneg)).
  - exact (proj1 (proj2 (Hkeep key_foo 17 saturated_filter empty_disk
                           saturated_sub_nonneg))).
  - exact (proj2 (proj2 (Hkeep key_foo 17 saturated_filter empty_disk
                           saturated_sub_nonneg))).
  - exact Hfull.
  - vm_compute; reflexivity.
  - reflexivity.
  - rewrite (Hadd key_foo saturated_sub 11%nat 15 Hfull).
    vm_compute; reflexivity.
  - exact Hnone.
  - assert (positions key_bar saturated_sub = [36; 26; 16]%nat) as ->
      by (vm_compute; reflexivity).
    constructor.
  - exact (Hdel key_bar saturated_sub 36%nat Hnone).
Defined.

Lemma check_nonnegative :
  forall (b : ScalingFilter) k, 0 <= @scaling_bloom_check engine b k.
Proof. intros b k. simpl. destruct (scaling_check k b); lia. Qed.

Lemma check_agrees_with_contains_witness :
  (forall (b : ScalingFilter) k, 0 <= @scaling_bloom_check engine b k)
  /\ match pydablooms.contains (obj small_filter) (Some key_foo) (clean empty_disk),
           pydablooms.check (obj small_filter) (Some key_foo) (clean empty_disk) with
     | pydablooms.Done c st1, pydablooms.Done res st2 =>
       st1 = st2 /\ res = Some (PyLong c)
       /\ pydablooms.in_operator c = Some (pydablooms.truth (PyLong c))
     | pydablooms.Fault, pydablooms.Fault => True
     | _, _ => False
     end.
Proof.
  split; [exact check_nonnegative|].
  apply (binding_facts.check_agrees_with_contains (obj small_filter) key_foo
           (clean empty_disk) check_nonnegative).
Defined.

Lemma half_accepted : pydablooms.accepted 3 d_half (Some "f"%string).
Proof. by split_and!. Qed.

(** C4 as stated fails when the backing file is absent: with valid
    parameters [load_dabloom] raises nothing and returns an object. *)
Lemma load_absent_file_returns_object :
  disk empty_disk !! "f"%string = None
  /\ pydablooms.load_dabloom pydablooms.Null (Some (3, d_half, Some "f"%string))
       (clean empty_disk)
     = pydablooms.Done
         (Some (pydablooms.PyDablooms (pydablooms.Build_Dablooms pydablooms.Null)))
         (clean empty_disk).
Proof. split; reflexivity. Qed.

Lemma load_of_unusable_file_witness :
  pydablooms.accepted 3 d_half (Some "f"%string)
  /\ unusable "f" empty_disk
  /\ pydablooms.load_dabloom pydablooms.Wild (Some (3, d_half, Some "f"%string))
       (clean empty_disk)
     = pydablooms.Done
         (Some (pydablooms.PyDablooms (pydablooms.Build_Dablooms pydablooms.Null)))
         (clean empty_disk).
Proof.
  split; [exact half_accepted|]. split; [exact I|].
  apply (load_of_unusable_file pydablooms.Wild 3 d_half (Some "f"%string)
           (clean empty_disk) half_accepted I).
Defined.

(** C5 as stated fails on storage that fails: [Dablooms_init] returns 0
    and [flush] returns the integer -1, and neither raises anything. *)
Lemma failed_creation_reports_success :
  create "f" 3 d_half failing_disk = inl IOError
  /\ pydablooms.Dablooms_init (pydablooms.Build_Dablooms pydablooms.Null)
       (Some (3, d_half, Some "f"%string)) (clean failing_disk)
     = pydablooms.Done (0, pydablooms.Build_Dablooms pydablooms.Null)
         (clean failing_disk)
  /\ pydablooms.flush (obj small_filter) (clean failing_disk)
     = pydablooms.Done (Some (PyLong (-1)), obj small_filter) (clean failing_disk).
Proof. split_and!; reflexivity. Qed.

Lemma io_failure_not_raised_witness :
  io_ok failing_disk = false
  /\ pydablooms.accepted 3 d_half (Some "f"%string)
  /\ pydablooms.Dablooms_init (pydablooms.Build_Dablooms pydablooms.Null)
       (Some (3, d_half, Some "f"%string)) (clean failing_disk)
     = pydablooms.Done (0, pydablooms.Build_Dablooms pydablooms.Null)
         (clean failing_disk)
  /\ pydablooms.flush (obj small_filter) (clean failing_disk)
     = pydablooms.Done (Some (PyLong (-1)), obj small_filter) (clean failing_disk).
Proof.
  split; [reflexivity|]. split; [exact half_accepted|].
  destruct (io_failure_not_raised (pydablooms.Build_Dablooms pydablooms.Null)
              small_filter 3 d_half (Some "f"%string) (clean failing_disk)
              eq_refl) as [Hinit Hflush].
  split; [exact (Hinit half_accepted)|exact Hflush].
Defined.
End binding_on_engine.

(** ** The scenarios of the specification, run on the reference tuning *)

Module scenarios.
Import dablooms.
#[local] Existing Instance reference_tuning.

(** Scenario 3: 150 adds to a filter of capacity 100 all return 0, leave two
    sub-filters, and every key checks true. *)
Example scenario_3 :
  match create "f" 100 d_half empty_disk with
  | inr (s, _) =>
    let r := add_all (keys_upto 150) s in
    forallb (fun z => z =? 0) r.1
    && (length (sub_filters r.2) =? 2)%nat
    && forallb (fun item => scaling_check item.1 r.2) (keys_upto 150)
  | inl _ => false
  end = true.
Proof. vm_compute. reflexivity. Qed.

(** Scenario 4: after 10 adds a flush returns 0 and both sequence numbers
    are 10; the filter opened from the file has both at 10 and every key
    checks true. *)
Example scenario_4 :
  match create "f" 100 d_half empty_disk with
  | inr (s, w) =>
    let '(r, s1, w1) := flush (add_all (keys_upto 10) s).2 w in
    match open "f" w1 with
    | inr (s2, _) =>
      (r =? 0) && (disk_seqnum s1 =? 10)%N && (mem_seqnum s1 =? 10)%N
      && (disk_seqnum s2 =? 10)%N && (mem_seqnum s2 =? 10)%N
      && forallb (fun item => scaling_check item.1 s2) (keys_upto 10)
    | inl _ => false
    end
  | inl _ => false
  end = true.
Proof. vm_compute. reflexivity. Qed.

(** Scenario 5: the three configuration errors of [create]. *)
Example scenario_5 :
  create "f" 0 d_half empty_disk = inl ConfigurationError
  /\ create "f" 10 (S754_finite false 6755399441055744 (-52)) empty_disk
     = inl ConfigurationError
  /\ create "" 10 d_half empty_disk = inl ConfigurationError.
Proof. by split_and!. Qed.
End scenarios.

(** ** More on the binding, on any engine *)

Module binding_more.
Section Any.
Context {E : Engine}.

Local Abbreviation Dablooms_init := (@pydablooms.Dablooms_init E).
Local Abbreviation Dablooms_dealloc := (@pydablooms.Dablooms_dealloc E).
Local Abbreviation load_dabloom := (@pydablooms.load_dabloom E).
Local Abbreviation Done := (@pydablooms.Done E).
Local Abbreviation Fault := (@pydablooms.Fault E).
Local Abbreviation PyLong := (@pydablooms.PyLong E).
Local Abbreviation DabloomsError := pydablooms.DabloomsError.
Local Abbreviation ArgumentError := pydablooms.ArgumentError.
Local Abbreviation obj p := (@pydablooms.Build_Dablooms E p).
Local Abbreviation state e w := (@pydablooms.Build_pystate E e w).
Local Abbreviation env := (@pydablooms.env E).
Local Abbreviation err := (@pydablooms.err E).

(** X1.  When one of its three tests fails, [Dablooms_init] returns -1 with
    [DabloomsError] set, leaves the object and the engine's world as they
    were, and the message is that of the first test that fails: capacity
    before error rate before file path. *)
Theorem init_rejects_in_order self capacity error_rate filepath st :
  pydablooms.rejected capacity error_rate filepath ->
  exists msg,
    Dablooms_init self (Some (capacity, error_rate, filepath)) st
    = Done (-1, self) (state (Some (DabloomsError msg)) (env st))
    /\ (capacity < 1 ->
        msg = "Bloom creation failed: capacity must be greater than zero"%string)
    /\ (1 <= capacity ->
        d_gt error_rate d_one = true \/ d_lt error_rate d_zero = true ->
        msg = "Bloom creation failed: error_rate must be between 0 and 1"%string)
    /\ (1 <= capacity ->
        d_gt error_rate d_one = false -> d_lt error_rate d_zero = false ->
        msg = "Bloom creation failed: filepath required"%string).
Proof.
  intros Hrej. exists (pydablooms.complaint capacity error_rate).
  split; [by apply binding_facts.init_rejected|].
  unfold pydablooms.complaint. split_and!.
  - intros Hcap. by destruct (Z.ltb_spec capacity 1); [|lia].
  - intros Hcap Hrate. destruct (Z.ltb_spec capacity 1); [lia|].
    by destruct Hrate as [-> | ->]; rewrite ?orb_true_r.
  - intros Hcap -> ->. by destruct (Z.ltb_spec capacity 1); [lia|].
Qed.

(** X2.  With parameters its tests turn down, [load_dabloom] sets the
    message [Dablooms_init] sets and then releases the object it allocated,
    whose [filter] field it never wrote: when that field is null it returns
    [NULL] and the engine's world is untouched; when it is the address of a
    live filter that filter is freed; any other content is handed to the
    engine as it is. *)
Theorem load_rejected_by_junk junk self capacity error_rate filepath st :
  pydablooms.rejected capacity error_rate filepath ->
  exists msg,
    Dablooms_init self (Some (capacity, error_rate, filepath)) st
    = Done (-1, self) (state (Some (DabloomsError msg)) (env st))
    /\ load_dabloom junk (Some (capacity, error_rate, filepath)) st
       = match junk with
         | pydablooms.Null => Done None (state (Some (DabloomsError msg)) (env st))
         | pydablooms.Ref b =>
           Done None (state (Some (DabloomsError msg))
                        (free_scaling_bloom b (env st)))
         | pydablooms.Wild => Fault
         end.
Proof.
  intros Hrej. exists (pydablooms.complaint capacity error_rate).
  split; [by apply binding_facts.init_rejected|].
  destruct junk as [|b|].
  - by apply binding_facts.load_rejected_null.
  - unfold pydablooms.load_dabloom, pydablooms.bind, pydablooms.complaint. simpl.
    destruct (Z.ltb_spec capacity 1); [done|].
    destruct (d_gt error_rate d_one || d_lt error_rate d_zero) eqn:Hrate; [done|].
    apply orb_false_iff in Hrate as [Hgt Hlt].
    destruct Hrej as [?|[?|[?|Hpath]]]; [lia|congruence|congruence|].
    by rewrite Hpath.
  - by apply binding_facts.load_rejected_wild.
Qed.

(** X3.  With a capacity of at least 1 and a usable file path,
    [Dablooms_init] returns 0 exactly when the error rate is a NaN or lies
    in [0, 1], bounds included. *)
Theorem init_reaches_engine_iff self capacity error_rate filepath st :
  1 <= capacity -> pydablooms.has_path filepath = true ->
  (exists self' st',
     Dablooms_init self (Some (capacity, error_rate, filepath)) st
     = Done (0, self') st')
  <-> is_nan error_rate = true
      \/ d_le d_zero error_rate && d_le error_rate d_one = true.
Proof.
  intros Hcap Hpath.
  assert (d_gt error_rate d_one || d_lt error_rate d_zero = false
          <-> is_nan error_rate = true
              \/ d_le d_zero error_rate && d_le error_rate d_one = true) as Htest.
  { destruct (is_nan error_rate) eqn:Hnan.
    - destruct error_rate; try done. split; [by left|done].
    - rewrite (rate_test_complete error_rate Hnan), negb_false_iff.
      split; [by right|by intros [?|?]]. }
  rewrite <- Htest. split.
  - intros (self' & st' & Hrun).
    destruct (d_gt error_rate d_one || d_lt error_rate d_zero) eqn:Hrate; [|done].
    rewrite binding_facts.init_rejected in Hrun; [done|].
    apply orb_true_iff in Hrate as [?|?]; [right; by left|right; right; by left].
  - intros [Hgt Hlt]%orb_false_iff. eexists _, _.
    by apply binding_facts.init_accepted.
Qed.

(** X4.  Construction and release compose: on a new object,
    [Dablooms_init] with parameters that pass followed by
    [Dablooms_dealloc] calls [new_scaling_bloom] once and then
    [free_scaling_bloom] once on the filter it returned, or not at all when
    it returned null; with parameters that fail, the engine is not called
    at all.  Neither run hands the engine a pointer that is not live. *)
Theorem construct_then_release capacity error_rate filepath st :
  let run :=
    pydablooms.bind
      (Dablooms_init (obj pydablooms.Null) (Some (capacity, error_rate, filepath)))
      (fun r => Dablooms_dealloc r.2) in
  (pydablooms.accepted capacity error_rate filepath ->
   let r := new_scaling_bloom capacity error_rate
              (pydablooms.path_of filepath) (env st) in
   run st = Done tt (state (err st)
                       match r.1 with
                       | Some b => free_scaling_bloom b r.2
                       | None => r.2
                       end))
  /\ (pydablooms.rejected capacity error_rate filepath ->
      exists msg, run st = Done tt (state (Some (DabloomsError msg)) (env st))).
Proof.
  intros run. subst run. unfold pydablooms.bind. split.
  - intros Hacc. rewrite (binding_facts.init_accepted _ _ _ _ _ Hacc). simpl.
    by destruct (new_scaling_bloom _ _ _ _) as [[b|] w].
  - intros Hrej. eexists.
    by rewrite (binding_facts.init_rejected _ _ _ _ _ Hrej).
Qed.

(** X5.  [Dablooms_init] does not release the filter an object already
    holds: two constructions that succeed on one object followed by
    [Dablooms_dealloc] free the second filter only. *)
Theorem reinit_leaks_first self c1 e1 p1 c2 e2 p2 st b1 w1 b2 w2 :
  pydablooms.accepted c1 e1 p1 -> pydablooms.accepted c2 e2 p2 ->
  new_scaling_bloom c1 e1 (pydablooms.path_of p1) (env st) = (Some b1, w1) ->
  new_scaling_bloom c2 e2 (pydablooms.path_of p2) w1 = (Some b2, w2) ->
  pydablooms.bind (Dablooms_init self (Some (c1, e1, p1)))
    (fun r1 => pydablooms.bind (Dablooms_init r1.2 (Some (c2, e2, p2)))
                 (fun r2 => Dablooms_dealloc r2.2)) st
  = Done tt (state (err st) (free_scaling_bloom b2 w2)).
Proof.
  intros Hacc1 Hacc2 Hnew1 Hnew2. unfold pydablooms.bind.
  rewrite (binding_facts.init_accepted _ _ _ _ _ Hacc1), Hnew1. simpl.
  rewrite (binding_facts.init_accepted _ _ _ _ _ Hacc2). simpl.
  by rewrite Hnew2.
Qed.

(** X6.  Arguments the parser turns down stop every entry point before the
    [filter] pointer is read: whatever that pointer is, the call returns
    its error value with the parser's exception set and the engine's world
    untouched; [load_dabloom] then returns without releasing the object it
    allocated. *)
Theorem parse_failure_stops_early (self : pydablooms.Dablooms) junk st :
  let failed := state (Some ArgumentError) (env st) in
  Dablooms_init self None st = Done (-1, self) failed
  /\ pydablooms.contains self None st = Done (-1) failed
  /\ pydablooms.check self None st = Done None failed
  /\ pydablooms.add self None st = Done (None, self) failed
  /\ pydablooms.delete self None st = Done (None, self) failed
  /\ load_dabloom junk None st = Done None failed.
Proof. by split_and!. Qed.

(** X7.  An object whose [filter] is null, as [Dablooms_new] and a
    [Dablooms_init] whose engine call failed leave it, is not protected:
    every method hands the null pointer to the engine. *)
Theorem null_filter_faults self capacity error_rate filepath st key id :
  pydablooms.accepted capacity error_rate filepath ->
  (new_scaling_bloom capacity error_rate (pydablooms.path_of filepath) (env st)).1
  = None ->
  exists self' st',
    Dablooms_init self (Some (capacity, error_rate, filepath)) st
    = Done (0, self') st'
    /\ pydablooms.Dablooms_new st
       = Done (Some (pydablooms.PyDablooms self')) st
    /\ pydablooms.check self' (Some key) st' = Fault
    /\ pydablooms.contains self' (Some key) st' = Fault
    /\ pydablooms.add self' (Some (key, id)) st' = Fault
    /\ pydablooms.delete self' (Some (key, id)) st' = Fault
    /\ pydablooms.flush self' st' = Fault
    /\ pydablooms.mem_seqnum self' st' = Fault
    /\ pydablooms.disk_seqnum self' st' = Fault.
Proof.
  intros Hacc Hnone. eexists _, _.
  split; [by apply binding_facts.init_accepted|]. simpl. rewrite Hnone.
  by split_and!.
Qed.

(** X8.  With parameters that pass its tests [load_dabloom] does not depend
    on what the unset [filter] field held: it calls
    [new_scaling_bloom_from_file] once, frees nothing, leaves the error
    indicator alone and returns an object that holds the pointer the engine
    returned. *)
Theorem load_ignores_junk_when_accepted junk capacity error_rate filepath st :
  pydablooms.accepted capacity error_rate filepath ->
  load_dabloom junk (Some (capacity, error_rate, filepath)) st
  = load_dabloom pydablooms.Null (Some (capacity, error_rate, filepath)) st
  /\ exists f w,
      new_scaling_bloom_from_file capacity error_rate
        (pydablooms.path_of filepath) (env st) = (f, w)
      /\ load_dabloom junk (Some (capacity, error_rate, filepath)) st
         = Done (Some (pydablooms.PyDablooms (obj (pydablooms.of_option f))))
             (state (err st) w).
Proof.
  intros Hacc. rewrite !(binding_facts.load_accepted _ _ _ _ _ Hacc).
  split; [done|]. simpl.
  destruct (new_scaling_bloom_from_file _ _ _ _) as [f w]. by exists f, w.
Qed.

(** X9.  [add], [delete] and [flush] on a live filter never raise: whatever
    status the engine reports, zero or not, comes back as an integer
    object, the error indicator is as before, and the object holds the
    filter as the engine left it. *)
Theorem engine_status_returned (b : scaling_bloom_t) key id st :
  (forall r b' w', scaling_bloom_add b key id (env st) = (r, b', w') ->
     pydablooms.add (obj (pydablooms.Ref b)) (Some (key, id)) st
     = Done (Some (PyLong r), obj (pydablooms.Ref b')) (state (err st) w'))
  /\ (forall r b' w', scaling_bloom_remove b key id (env st) = (r, b', w') ->
        pydablooms.delete (obj (pydablooms.Ref b)) (Some (key, id)) st
        = Done (Some (PyLong r), obj (pydablooms.Ref b')) (state (err st) w'))
  /\ (forall r b' w', scaling_bloom_flush b (env st) = (r, b', w') ->
        pydablooms.flush (obj (pydablooms.Ref b)) st
        = Done (Some (PyLong r), obj (pydablooms.Ref b')) (state (err st) w')).
Proof.
  split_and!; intros r b' w' Hrun;
    unfold pydablooms.add, pydablooms.delete, pydablooms.flush,
      pydablooms.bind, pydablooms.in_world; simpl; by rewrite Hrun.
Qed.
(** X11.  What an [add] leaves is what the next call works on: [check] and
    [mem_seqnum] after an [add] on a live filter read the filter the
    engine's add returned, in the world it left. *)
Theorem add_then_reads_see_new_filter (b : scaling_bloom_t) key id key' st r b' w' :
  scaling_bloom_add b key id (env st) = (r, b', w') ->
  pydablooms.bind (pydablooms.add (obj (pydablooms.Ref b)) (Some (key, id)))
    (fun x => pydablooms.check x.2 (Some key')) st
  = Done (Some (PyLong (scaling_bloom_check b' key'))) (state (err st) w')
  /\ pydablooms.bind (pydablooms.add (obj (pydablooms.Ref b)) (Some (key, id)))
       (fun x => pydablooms.mem_seqnum x.2) st
     = Done (Some (PyLong (scaling_bloom_mem_seqnum b'))) (state (err st) w').
Proof.
  intros Hadd.
  unfold pydablooms.bind, pydablooms.add, pydablooms.bind, pydablooms.in_world.
  simpl. by rewrite Hadd.
Qed.
End Any.

(** X10.  [filepath && strlen(filepath)] holds exactly of a non-null path
    whose first character is not NUL; on a path without a NUL [strlen] is
    the length, so every non-empty such path passes. *)
Theorem has_path_iff (filepath : option string) :
  (pydablooms.has_path filepath = true
   <-> exists c rest, filepath = Some (String c rest) /\ c <> Ascii.zero)
  /\ (forall p, filepath = Some p ->
      (forall c, In c (String.list_ascii_of_string p) -> c <> Ascii.zero) ->
      strlen p = String.length p
      /\ pydablooms.has_path filepath = negb (String.eqb p "")).
Proof.
  split.
  - destruct filepath as [[|c rest]|]; simpl.
    + split; [done|]. by intros (c & rest & [=] & _).
    + destruct (Ascii.eqb_spec c Ascii.zero) as [->|Hne]; simpl.
      * split; [done|]. by intros (c & rest' & [= <- _] & Hc).
      * split; [|done]. intros _. by exists c, rest.
    + split; [done|]. by intros (c & rest & [=] & _).
  - intros p -> Hnul.
    assert (strlen p = String.length p) as Hlen.
    { induction p as [|c p IH]; [done|]. simpl.
      destruct (Ascii.eqb_spec c Ascii.zero) as [->|_].
      - exfalso. apply (Hnul Ascii.zero); [by left|done].
      - f_equal. apply IH. intros c' Hc'. apply Hnul. by right. }
    split; [done|]. simpl. rewrite Hlen. by destruct p.
Qed.
End binding_more.

(** ** Runs of the theorems above, on the engine of the specification *)

Module binding_more_runs.
Import dablooms.
#[local] Existing Instance reference_tuning.

Local Abbreviation obj p := (@pydablooms.Build_Dablooms engine p).
Local Abbreviation clean w := (@pydablooms.Build_pystate engine None w).
Local Abbreviation state e w := (@pydablooms.Build_pystate engine e w).
Local Abbreviation Null := (@pydablooms.Null engine).
Local Abbreviation Ref b := (@pydablooms.Ref engine b).
Local Abbreviation PyLong := (@pydablooms.PyLong engine).
Local Abbreviation half_args := (Some (3, d_half, Some "f"%string)).
Local Abbreviation zero_args := (Some (0, d_half, Some "f"%string)).

Lemma zero_rejected : pydablooms.rejected 0 d_half (Some "f"%string).
Proof. left. lia. Qed.

Lemma three_accepted : pydablooms.accepted 3 d_half (Some "f"%string).
Proof. by split_and!. Qed.

Lemma init_rejects_in_order_witness :
  pydablooms.rejected 0 d_half (Some "f"%string)
  /\ exists msg,
      pydablooms.Dablooms_init (obj Null) zero_args (clean empty_disk)
      = pydablooms.Done (-1, obj Null)
          (state (Some (pydablooms.DabloomsError msg)) empty_disk)
      /\ msg = "Bloom creation failed: capacity must be greater than zero"%string.
Proof.
  split; [exact zero_rejected|].
  destruct (binding_more.init_rejects_in_order (obj Null) 0 d_half
              (Some "f"%string) (clean empty_disk) zero_rejected)
    as (msg & Hrun & Hcap & _).
  exists msg. split; [exact Hrun|]. apply Hcap. lia.
Defined.

Lemma load_rejected_by_junk_witness :
  pydablooms.rejected 0 d_half (Some "f"%string)
  /\ exists msg,
      pydablooms.Dablooms_init (obj Null) zero_args (clean empty_disk)
      = pydablooms.Done (-1, obj Null)
          (state (Some (pydablooms.DabloomsError msg)) empty_disk)
      /\ pydablooms.load_dabloom (Ref small_filter) zero_args (clean empty_disk)
         = pydablooms.Done None
             (state (Some (pydablooms.DabloomsError msg))
                (free_scaling_bloom small_filter empty_disk)).
Proof.
  split; [exact zero_rejected|].
  apply (binding_more.load_rejected_by_junk (Ref small_filter) (obj Null) 0
           d_half (Some "f"%string) (clean empty_disk) zero_rejected).
Defined.

Lemma init_reaches_engine_iff_witness :
  1 <= 3 /\ pydablooms.has_path (Some "f"%string) = true
  /\ ((exists self' st',
         pydablooms.Dablooms_init (obj Null) half_args (clean empty_disk)
         = pydablooms.Done (0, self') st')
      <-> is_nan d_half = true \/ d_le d_zero d_half && d_le d_half d_one = true).
Proof.
  split; [lia|]. split; [reflexivity|].
  apply (binding_more.init_reaches_engine_iff (obj Null) 3 d_half
           (Some "f"%string) (clean empty_disk)); [lia|reflexivity].
Defined.

Lemma construct_then_release_witness :
  pydablooms.accepted 3 d_half (Some "f"%string)
  /\ pydablooms.bind (pydablooms.Dablooms_init (obj Null) half_args)
       (fun r => pydablooms.Dablooms_dealloc r.2) (clean empty_disk)
     = pydablooms.Done tt (clean (store "f" small_filter empty_disk)).
Proof.
  split; [exact three_accepted|].
  apply (proj1 (binding_more.construct_then_release 3 d_half (Some "f"%string)
                  (clean empty_disk)) three_accepted).
Defined.

Lemma reinit_leaks_first_witness :
  pydablooms.accepted 3 d_half (Some "f"%string)
  /\ new_scaling_bloom 3 d_half "f" empty_disk
     = (Some small_filter, store "f" small_filter empty_disk)
  /\ new_scaling_bloom 3 d_half "f" (store "f" small_filter empty_disk)
     = (Some small_filter,
        store "f" small_filter (store "f" small_filter empty_disk))
  /\ pydablooms.bind (pydablooms.Dablooms_init (obj Null) half_args)
       (fun r1 =>
          pydablooms.bind (pydablooms.Dablooms_init r1.2 half_args)
            (fun r2 => pydablooms.Dablooms_dealloc r2.2)) (clean empty_disk)
     = pydablooms.Done tt
         (clean (free_scaling_bloom small_filter
                   (store "f" small_filter (store "f" small_filter empty_disk)))).
Proof.
  split; [exact three_accepted|]. split; [reflexivity|]. split; [reflexivity|].
  apply (binding_more.reinit_leaks_first (obj Null) 3 d_half (Some "f"%string)
           3 d_half (Some "f"%string) (clean empty_disk)
           small_filter (store "f" small_filter empty_disk)
           small_filter
           (store "f" small_filter (store "f" small_filter empty_disk))
           three_accepted three_accepted eq_refl eq_refl).
Defined.

Lemma null_filter_faults_witness :
  pydablooms.accepted 3 d_half (Some "f"%string)
  /\ (new_scaling_bloom 3 d_half "f" failing_disk).1 = None
  /\ exists self' st',
      pydablooms.Dablooms_init (obj Null) half_args (clean failing_disk)
      = pydablooms.Done (0, self') st'
      /\ pydablooms.check self' (Some key_foo) st' = pydablooms.Fault
      /\ pydablooms.flush self' st' = pydablooms.Fault.
Proof.
  split; [exact three_accepted|]. split; [reflexivity|].
  destruct (binding_more.null_filter_faults (obj Null) 3 d_half
              (Some "f"%string) (clean failing_disk) key_foo 1
              three_accepted eq_refl)
    as (self' & st' & Hinit & _ & Hcheck & _ & _ & _ & Hflush & _).
  by exists self', st'.
Defined.

Lemma load_ignores_junk_when_accepted_witness :
  pydablooms.accepted 3 d_half (Some "f"%string)
  /\ pydablooms.load_dabloom (@pydablooms.Wild engine) half_args (clean empty_disk)
     = pydablooms.load_dabloom Null half_args (clean empty_disk).
Proof.
  split; [exact three_accepted|].
  apply (proj1 (binding_more.load_ignores_junk_when_accepted
                  (@pydablooms.Wild engine) 3 d_half (Some "f"%string)
                  (clean empty_disk) three_accepted)).
Defined.

Lemma engine_status_returned_witness :
  @scaling_bloom_flush engine small_filter failing_disk
  = (-1, small_filter, failing_disk)
  /\ pydablooms.flush (obj (Ref small_filter)) (clean failing_disk)
     = pydablooms.Done (Some (PyLong (-1)), obj (Ref small_filter))
         (clean failing_disk).
Proof.
  split; [reflexivity|].
  apply (proj2 (proj2 (@binding_more.engine_status_returned engine small_filter key_foo 1
                         (clean failing_disk))) (-1) small_filter failing_disk
           eq_refl).
Defined.

Lemma has_path_iff_witness :
  (forall c, In c (String.list_ascii_of_string "f") -> c <> Ascii.zero)
  /\ strlen "f" = String.length "f"
  /\ pydablooms.has_path (Some "f"%string) = negb (String.eqb "f" "").
Proof.
  assert (forall c, In c (String.list_ascii_of_string "f") -> c <> Ascii.zero)
    as Hnul by (intros c [<-|[]]; discriminate).
  split; [exact Hnul|].
  apply (proj2 (binding_more.has_path_iff (Some "f"%string)) "f"%string eq_refl Hnul).
Defined.
Lemma add_then_reads_see_new_filter_witness :
  @scaling_bloom_add engine small_filter key_foo 1 empty_disk
  = (0, (scaling_add key_foo 1 small_filter).2, empty_disk)
  /\ pydablooms.bind (pydablooms.add (obj (Ref small_filter)) (Some (key_foo, 1)))
       (fun x => pydablooms.check x.2 (Some key_foo)) (clean empty_disk)
     = pydablooms.Done (Some (PyLong 1)) (clean empty_disk).
Proof.
  split; [reflexivity|].
  rewrite (proj1 (@binding_more.add_then_reads_see_new_filter engine small_filter
                    key_foo 1 key_foo (clean empty_disk) 0
                    (scaling_add key_foo 1 small_filter).2 empty_disk eq_refl)).
  reflexivity.
Defined.
End binding_more_runs.
